(** * Multi-factor authentication service: model and verification

    Shallow embedding of [negocio/servicio_autenticacion.py]
    (class [ServicioAutenticacion]) and proofs of its behaviour:
    the RFID validator, the gestural PIN validator with lockout, the
    gesture-pattern matcher (positional similarity and timing band) and
    the orchestrator [autenticar_mfa].

    Python objects handed out by the repositories are mutated in place;
    the model keeps them in finite maps inside a world state that every
    operation threads, so that a mutation made before an exception is
    raised stays visible afterwards. *)

From Stdlib Require Import ZArith Bool List Lia.
From Stdlib Require Import Floats.SpecFloat.
From stdpp Require Import gmap strings list fin_maps.

Local Open Scope Z_scope.

(** ** Python floats: IEEE-754 binary64 *)

Module F.

Definition prec : Z := 53.
Definition emax : Z := 1024.

Definition float : Type := spec_float.

(** [int] to [float]; exact below 2^53, rounded to nearest-even above. *)
Definition of_int (z : Z) : float := binary_normalize prec emax z 0 false.

Definition mul : float -> float -> float := SFmul prec emax.
Definition div : float -> float -> float := SFdiv prec emax.
Definition eqb : float -> float -> bool := SFeqb.
Definition ltb : float -> float -> bool := SFltb.
Definition leb : float -> float -> bool := SFleb.

Definition es_nan (x : float) : bool :=
  match x with S754_nan => true | _ => false end.

(** The literals of the source, as the doubles Python parses them to. *)
Definition c0_9 : float := S754_finite false 8106479329266893 (-53).
Definition c0_6 : float := S754_finite false 5404319552844595 (-53).
Definition c1_4 : float := S754_finite false 6305039478318694 (-52).

End F.

(** ** Data model *)

(** Modelled from the spec: [negocio/enums.py] is not part of the sources
    at hand.  The credential states are the four the specification lists;
    [EXPIRADA] and [BLOQUEADO] are the two members the service names. *)
Inductive EstadoCredencial : Type := ACTIVA | EXPIRADA | BLOQUEADA | INACTIVA.
Inductive EstadoPin : Type := ACTIVO | BLOQUEADO.

#[global] Instance EstadoCredencial_eq_dec : EqDecision EstadoCredencial.
Proof. solve_decision. Defined.
#[global] Instance EstadoPin_eq_dec : EqDecision EstadoPin.
Proof. solve_decision. Defined.

(** A calendar date is its proleptic ordinal; a [datetime] is a date and
    the microseconds elapsed within that day. *)
Definition date : Type := Z.
Record datetime : Type := { dt_fecha : date; dt_micros : Z }.

(** [datetime.date()] *)
Definition datetime_date (d : datetime) : date := dt_fecha d.

(** Modelled from the spec: [negocio/modelos.py] is not part of the
    sources at hand.  The entities carry the attributes the data model of
    the specification lists, under the names the service uses. *)
Module Cred.
Record t : Type := {
  cedula_propietario : string;
  fecha_expiracion : date;
  estado : EstadoCredencial;
  intentos_fallidos : Z;
  intentos_exitosos : Z;
  ultimo_acceso : option datetime
}.

Definition con_estado (e : EstadoCredencial) (c : t) : t :=
  {| cedula_propietario := cedula_propietario c;
     fecha_expiracion := fecha_expiracion c;
     estado := e;
     intentos_fallidos := intentos_fallidos c;
     intentos_exitosos := intentos_exitosos c;
     ultimo_acceso := ultimo_acceso c |}.

Definition con_intentos_fallidos (n : Z) (c : t) : t :=
  {| cedula_propietario := cedula_propietario c;
     fecha_expiracion := fecha_expiracion c;
     estado := estado c;
     intentos_fallidos := n;
     intentos_exitosos := intentos_exitosos c;
     ultimo_acceso := ultimo_acceso c |}.

Definition con_intentos_exitosos (n : Z) (c : t) : t :=
  {| cedula_propietario := cedula_propietario c;
     fecha_expiracion := fecha_expiracion c;
     estado := estado c;
     intentos_fallidos := intentos_fallidos c;
     intentos_exitosos := n;
     ultimo_acceso := ultimo_acceso c |}.

Definition con_ultimo_acceso (d : option datetime) (c : t) : t :=
  {| cedula_propietario := cedula_propietario c;
     fecha_expiracion := fecha_expiracion c;
     estado := estado c;
     intentos_fallidos := intentos_fallidos c;
     intentos_exitosos := intentos_exitosos c;
     ultimo_acceso := d |}.

(** Modelled from the spec: the method [esta_vigente] of the credential
    lives in [negocio/modelos.py].  The specification gives it as:
    the state is ACTIVE and the evaluation date is not after the
    expiration date. *)
Definition esta_vigente (c : t) (fecha : date) : bool :=
  bool_decide (estado c = ACTIVA) && (fecha <=? fecha_expiracion c).
End Cred.

Module Pin.
Record t : Type := {
  id_area : string;
  secuencia_gestos : list Z;
  estado : EstadoPin;
  intentos_fallidos : Z
}.

Definition con_estado (e : EstadoPin) (p : t) : t :=
  {| id_area := id_area p;
     secuencia_gestos := secuencia_gestos p;
     estado := e;
     intentos_fallidos := intentos_fallidos p |}.

Definition con_intentos_fallidos (n : Z) (p : t) : t :=
  {| id_area := id_area p;
     secuencia_gestos := secuencia_gestos p;
     estado := estado p;
     intentos_fallidos := n |}.
End Pin.

Module Patron.
Record t : Type := {
  cedula_usuario : string;
  secuencia_gestos : list Z;
  tiempos_entre_gestos : option (list F.float)
}.
End Patron.

Module Acceso.
Record t : Type := {
  id_acceso : string;
  cedula_usuario : string;
  id_area : string;
  fecha_entrada : datetime;
  registro_exitoso_id : string
}.
End Acceso.

(** ** Exceptions *)

(** The reason an [AutenticacionError] carries.  The pattern mismatch
    reports the similarity it computed and the threshold it was held
    against (the source formats both into the message). *)
Inductive Motivo : Type :=
| RfidNoCorresponde
| RfidNoVigente
| PinBloqueado
| PinIncorrecto
| PinIncompleto
| PatronNoCoincide (similitud umbral : F.float)
| PatronTimings
| PatronIncompleto.

Inductive Excepcion : Type :=
| NoEncontrado
| ValidacionError
| AutenticacionError (m : Motivo).

(** ** Collaborators *)

(** [ISensorGestos.capturar_secuencia(n, gesto_cierre=...)] answers with
    the gestures it read and, possibly, the delays between them. *)
Record ISensorGestos : Type := {
  capturar_secuencia : Z -> option Z -> list Z * option (list F.float)
}.

Record IActuadorAcceso : Type := { actuador_nombre : string }.

(** Every call the service makes on a collaborator, in the order made. *)
Inductive Llamada : Type :=
| LlObtenerPorSerial (serial : string)
| LlObtenerPorArea (id_area : string)
| LlObtenerPorUsuario (cedula : string)
| LlCapturarSecuencia (n : Z) (gesto_cierre : option Z)
| LlIndicarExito (a : IActuadorAcceso)
| LlAbrirPuerta (a : IActuadorAcceso)
| LlAgregar (a : Acceso.t).

(** ** World state *)

(** The repositories (the objects they hold are shared with the service,
    which mutates them in place), the log of collaborator calls, and the
    two sources of fresh values: the clock behind [datetime.now()] and
    the generator behind [uuid4()], each with the count of values drawn. *)
Record Mundo : Type := {
  repo_rfid : gmap string Cred.t;
  repo_pins : gmap string Pin.t;
  repo_patrones : gmap string Patron.t;
  repo_accesos : list Acceso.t;
  traza : list Llamada;
  reloj : nat -> datetime;
  lecturas_reloj : nat;
  uuids : nat -> string;
  uuids_usados : nat
}.

Definition con_repo_rfid (m : gmap string Cred.t) (w : Mundo) : Mundo :=
  {| repo_rfid := m; repo_pins := repo_pins w;
     repo_patrones := repo_patrones w; repo_accesos := repo_accesos w;
     traza := traza w; reloj := reloj w;
     lecturas_reloj := lecturas_reloj w;
     uuids := uuids w; uuids_usados := uuids_usados w |}.

Definition con_repo_pins (m : gmap string Pin.t) (w : Mundo) : Mundo :=
  {| repo_rfid := repo_rfid w; repo_pins := m;
     repo_patrones := repo_patrones w; repo_accesos := repo_accesos w;
     traza := traza w; reloj := reloj w;
     lecturas_reloj := lecturas_reloj w;
     uuids := uuids w; uuids_usados := uuids_usados w |}.

Definition con_repo_accesos (l : list Acceso.t) (w : Mundo) : Mundo :=
  {| repo_rfid := repo_rfid w; repo_pins := repo_pins w;
     repo_patrones := repo_patrones w; repo_accesos := l;
     traza := traza w; reloj := reloj w;
     lecturas_reloj := lecturas_reloj w;
     uuids := uuids w; uuids_usados := uuids_usados w |}.

Definition con_traza (t : list Llamada) (w : Mundo) : Mundo :=
  {| repo_rfid := repo_rfid w; repo_pins := repo_pins w;
     repo_patrones := repo_patrones w; repo_accesos := repo_accesos w;
     traza := t; reloj := reloj w;
     lecturas_reloj := lecturas_reloj w;
     uuids := uuids w; uuids_usados := uuids_usados w |}.

Definition con_lecturas_reloj (n : nat) (w : Mundo) : Mundo :=
  {| repo_rfid := repo_rfid w; repo_pins := repo_pins w;
     repo_patrones := repo_patrones w; repo_accesos := repo_accesos w;
     traza := traza w; reloj := reloj w;
     lecturas_reloj := n;
     uuids := uuids w; uuids_usados := uuids_usados w |}.

Definition con_uuids_usados (n : nat) (w : Mundo) : Mundo :=
  {| repo_rfid := repo_rfid w; repo_pins := repo_pins w;
     repo_patrones := repo_patrones w; repo_accesos := repo_accesos w;
     traza := traza w; reloj := reloj w;
     lecturas_reloj := lecturas_reloj w;
     uuids := uuids w; uuids_usados := n |}.

(** ** The monad of the service: state that survives exceptions *)

Definition M (A : Type) : Type := Mundo -> Mundo * (Excepcion + A).

Definition M_ret {A} (a : A) : M A := fun w => (w, inr a).

Definition M_bind {A B} (f : A -> M B) (m : M A) : M B :=
  fun w =>
    match m w with
    | (w1, inl e) => (w1, inl e)
    | (w1, inr a) => f a w1
    end.

#[global] Instance M_mret : MRet M := @M_ret.
#[global] Instance M_mbind : MBind M := @M_bind.

(** [raise] *)
Definition lanzar {A} (e : Excepcion) : M A := fun w => (w, inl e).

Definition leer : M Mundo := fun w => (w, inr w).

Definition modificar (f : Mundo -> Mundo) : M unit := fun w => (f w, inr tt).

Definition registrar (ll : Llamada) : M unit :=
  modificar (fun w => con_traza (traza w ++ [ll]) w).

(** Modelled from the spec: [negocio/repositorios.py] is not part of the
    sources at hand.  A lookup hands out the stored object or fails with
    the not-found error; [agregar] appends the record to the store. *)
Definition obtener_por_serial (serial : string) : M Cred.t :=
  registrar (LlObtenerPorSerial serial);;
  w ← leer;
  match repo_rfid w !! serial with
  | Some c => mret c
  | None => lanzar NoEncontrado
  end.

Definition obtener_por_area (id_area : string) : M Pin.t :=
  registrar (LlObtenerPorArea id_area);;
  w ← leer;
  match repo_pins w !! id_area with
  | Some p => mret p
  | None => lanzar NoEncontrado
  end.

Definition obtener_por_usuario (cedula : string) : M Patron.t :=
  registrar (LlObtenerPorUsuario cedula);;
  w ← leer;
  match repo_patrones w !! cedula with
  | Some p => mret p
  | None => lanzar NoEncontrado
  end.

Definition agregar (a : Acceso.t) : M unit :=
  registrar (LlAgregar a);;
  modificar (fun w => con_repo_accesos (repo_accesos w ++ [a]) w).

(** An assignment to an attribute of the credential (of the PIN) that was
    looked up under the given key: the stored object changes. *)
Definition mutar_cred (serial : string) (f : Cred.t -> Cred.t) : M unit :=
  modificar (fun w => con_repo_rfid (alter f serial (repo_rfid w)) w).

Definition mutar_pin (id_area : string) (f : Pin.t -> Pin.t) : M unit :=
  modificar (fun w => con_repo_pins (alter f id_area (repo_pins w)) w).

(** [datetime.now()] and [str(uuid4())] *)
Definition datetime_now : M datetime :=
  fun w => (con_lecturas_reloj (S (lecturas_reloj w)) w,
            inr (reloj w (lecturas_reloj w))).

Definition uuid4 : M string :=
  fun w => (con_uuids_usados (S (uuids_usados w)) w,
            inr (uuids w (uuids_usados w))).

Definition capturar (s : ISensorGestos) (n : Z) (gesto_cierre : option Z)
  : M (list Z * option (list F.float)) :=
  registrar (LlCapturarSecuencia n gesto_cierre);;
  mret (capturar_secuencia s n gesto_cierre).

Definition indicar_exito (a : IActuadorAcceso) : M unit :=
  registrar (LlIndicarExito a).

Definition abrir_puerta (a : IActuadorAcceso) : M unit :=
  registrar (LlAbrirPuerta a).

(** [len] *)
Definition len {A} (l : list A) : Z := Z.of_nat (length l).

(** Reading an attribute through the reference a lookup returned: the
    object as it is stored now ([c] is the object as it was looked up). *)
Definition actual_cred (serial : string) (c : Cred.t) : M Cred.t :=
  w ← leer; mret (default c (repo_rfid w !! serial)).

Definition actual_pin (id_area : string) (p : Pin.t) : M Pin.t :=
  w ← leer; mret (default p (repo_pins w !! id_area)).

(** ** The service *)

Record ServicioAutenticacion : Type := {
  max_intentos_rfid : Z;
  max_intentos_pin : Z;
  umbral_similitud_patron : F.float
}.

(** The dataclass defaults: 3, 3 and 0.9. *)
Definition servicio_por_defecto : ServicioAutenticacion :=
  {| max_intentos_rfid := 3;
     max_intentos_pin := 3;
     umbral_similitud_patron := F.c0_9 |}.


(** *** Factor 1: RFID *)

Definition validar_rfid (self : ServicioAutenticacion)
    (serial cedula_esperada : string) (ahora : datetime) : M unit :=
  cred ← obtener_por_serial serial;
  if negb (bool_decide (Cred.cedula_propietario cred = cedula_esperada)) then
    mutar_cred serial
      (fun c => Cred.con_intentos_fallidos (Cred.intentos_fallidos c + 1) c);;
    lanzar (AutenticacionError RfidNoCorresponde)
  else if negb (Cred.esta_vigente cred (datetime_date ahora)) then
    mutar_cred serial
      (fun c => Cred.con_intentos_fallidos (Cred.intentos_fallidos c + 1) c);;
    c ← actual_cred serial cred;
    (if Cred.fecha_expiracion c <? datetime_date ahora
     then mutar_cred serial (Cred.con_estado EXPIRADA)
     else mret tt);;
    lanzar (AutenticacionError RfidNoVigente)
  else
    mutar_cred serial
      (fun c => Cred.con_intentos_exitosos (Cred.intentos_exitosos c + 1) c);;
    mutar_cred serial (Cred.con_intentos_fallidos 0);;
    mutar_cred serial (Cred.con_ultimo_acceso (Some ahora)).

(** *** Factor 2: gestural PIN *)

Definition validar_pin (self : ServicioAutenticacion)
    (id_area : string) (secuencia_capturada : list Z) : M unit :=
  pin ← obtener_por_area id_area;
  if bool_decide (Pin.estado pin = BLOQUEADO) then
    lanzar (AutenticacionError PinBloqueado)
  else if negb (bool_decide (secuencia_capturada = Pin.secuencia_gestos pin)) then
    mutar_pin id_area
      (fun p => Pin.con_intentos_fallidos (Pin.intentos_fallidos p + 1) p);;
    p ← actual_pin id_area pin;
    (if max_intentos_pin self <=? Pin.intentos_fallidos p
     then mutar_pin id_area (Pin.con_estado BLOQUEADO)
     else mret tt);;
    lanzar (AutenticacionError PinIncorrecto)
  else
    mutar_pin id_area (Pin.con_intentos_fallidos 0).

(** *** Factor 3: gesture pattern *)

(** The counting loop: [i] runs over [range(min(len(ref), len(cap)))]
    and [matches] goes up where the two sequences agree at [i].  Every
    index is in range of both lists, so the default of [nth] is never
    read. *)
Definition contar_coincidencias (ref cap : list Z) : Z :=
  fold_left
    (fun matches i =>
       if nth i ref 0 =? nth i cap 0 then matches + 1 else matches)
    (seq 0 (Nat.min (length ref) (length cap)))
    0.

(** [matches / n]: the true division of two ints gives the double nearest
    to the quotient; so does the division of the two converted operands
    as long as both are below 2^53, which list lengths are. *)
Definition similitud (ref cap : list Z) : F.float :=
  let n := Z.max (len ref) (len cap) in
  let matches := contar_coincidencias ref cap in
  F.div (F.of_int matches) (F.of_int n).

(** [0.6 * ref <= got <= 1.4 * ref] *)
Definition dentro_de_tolerancia (ref got : F.float) : bool :=
  F.leb (F.mul F.c0_6 ref) got && F.leb got (F.mul F.c1_4 ref).

(** The loop over [zip(patron.tiempos_entre_gestos, tiempos)]. *)
Fixpoint verificar_timings (pares : list (F.float * F.float)) : M unit :=
  match pares with
  | [] => mret tt
  | (ref, got) :: resto =>
      if F.eqb ref (F.of_int 0) then verificar_timings resto
      else if negb (dentro_de_tolerancia ref got) then
        lanzar (AutenticacionError PatronTimings)
      else verificar_timings resto
  end.

Definition validar_patron (self : ServicioAutenticacion)
    (cedula : string) (secuencia_capturada : list Z)
    (tiempos : option (list F.float)) : M unit :=
  patron ← obtener_por_usuario cedula;
  if len secuencia_capturada =? 0 then lanzar ValidacionError
  else
    let s := similitud (Patron.secuencia_gestos patron) secuencia_capturada in
    if F.ltb s (umbral_similitud_patron self) then
      lanzar (AutenticacionError
                (PatronNoCoincide s (umbral_similitud_patron self)))
    else
      match Patron.tiempos_entre_gestos patron, tiempos with
      | Some refs, Some gots =>
          if len refs =? len gots
          then verificar_timings (zip refs gots)
          else mret tt
      | _, _ => mret tt
      end.

(** *** The orchestrator *)

Definition autenticar_mfa (self : ServicioAutenticacion)
    (cedula id_area serial_rfid : string)
    (sensor_pin sensor_patron : ISensorGestos)
    (actuador : IActuadorAcceso) (gesto_cierre : option Z) : M Acceso.t :=
  ahora ← datetime_now;
  validar_rfid self serial_rfid cedula ahora;;
  '(sec_pin, _) ← capturar sensor_pin 4 gesto_cierre;
  if negb (len sec_pin =? 4) then
    lanzar (AutenticacionError PinIncompleto)
  else
    validar_pin self id_area sec_pin;;
    '(sec_pat, tiempos) ← capturar sensor_patron 10 gesto_cierre;
    if negb (len sec_pat =? 10) then
      lanzar (AutenticacionError PatronIncompleto)
    else
      validar_patron self cedula sec_pat tiempos;;
      indicar_exito actuador;;
      abrir_puerta actuador;;
      id ← uuid4;
      let acceso :=
        {| Acceso.id_acceso := id;
           Acceso.cedula_usuario := cedula;
           Acceso.id_area := id_area;
           Acceso.fecha_entrada := ahora;
           Acceso.registro_exitoso_id := "" |} in
      agregar acceso;;
      mret acceso.

(** A caller that makes one call after another, catching what each one
    raises: the outcomes, in order, and the world left behind. *)
Fixpoint intentar_todos {A} (ms : list (M A)) (w : Mundo)
  : Mundo * list (Excepcion + A) :=
  match ms with
  | [] => (w, [])
  | m :: resto =>
      let '(w1, r) := m w in
      let '(w2, rs) := intentar_todos resto w1 in
      (w2, r :: rs)
  end.

(** The calls of a caller that keeps presenting tags, and of one that
    keeps entering PINs for an area. *)
Definition intentos_rfid (self : ServicioAutenticacion)
    (intentos : list (string * string * datetime)) : list (M unit) :=
  map (fun i : string * string * datetime =>
         validar_rfid self i.1.1 i.1.2 i.2) intentos.

Definition intentos_pin (self : ServicioAutenticacion) (id_area : string)
    (secs : list (list Z)) : list (M unit) :=
  map (validar_pin self id_area) secs.

(** ** Reference notions, as the specification words them *)

(** The number of matches: the positions of the overlap of the two
    sequences at which they hold the same gesture. *)
Definition coincidencias (ref cap : list Z) : Z :=
  len (List.filter (fun p : Z * Z => p.1 =? p.2) (zip ref cap)).

(** A pair of delays is accepted when the reference delay is zero or the
    captured one lies in the band around it. *)
Definition par_aceptado (p : F.float * F.float) : bool :=
  F.eqb p.1 (F.of_int 0) || dentro_de_tolerancia p.1 p.2.

(** Whether the timing check lets a call through: it does when either
    timing sequence is missing or their lengths differ, and otherwise
    when every pair is accepted. *)
Definition timings_aceptados (refs gots : option (list F.float)) : bool :=
  match refs, gots with
  | Some r, Some g =>
      if len r =? len g then forallb par_aceptado (zip r g) else true
  | _, _ => true
  end.

(** The calls that grant something: the two signals to the actuator and
    the recording of an access. *)
Definition es_concesion (ll : Llamada) : bool :=
  match ll with
  | LlIndicarExito _ | LlAbrirPuerta _ | LlAgregar _ => true
  | _ => false
  end.

(** ** A concrete installation, for running the model *)

Module Demo.

Definition dia : date := 739000.

Definition ahora : datetime := {| dt_fecha := dia; dt_micros := 36000000000 |}.

Definition cred_ana : Cred.t :=
  {| Cred.cedula_propietario := "101";
     Cred.fecha_expiracion := dia + 30;
     Cred.estado := ACTIVA;
     Cred.intentos_fallidos := 2;
     Cred.intentos_exitosos := 7;
     Cred.ultimo_acceso := None |}.

(** Blocked, and past its expiration date on [dia]. *)
Definition cred_luis : Cred.t :=
  {| Cred.cedula_propietario := "202";
     Cred.fecha_expiracion := dia - 1;
     Cred.estado := BLOQUEADA;
     Cred.intentos_fallidos := 5;
     Cred.intentos_exitosos := 0;
     Cred.ultimo_acceso := None |}.

(** Inactive, not yet past its expiration date on [dia]. *)
Definition cred_eva : Cred.t :=
  {| Cred.cedula_propietario := "303";
     Cred.fecha_expiracion := dia;
     Cred.estado := INACTIVA;
     Cred.intentos_fallidos := 0;
     Cred.intentos_exitosos := 1;
     Cred.ultimo_acceso := None |}.

Definition pin_lab : Pin.t :=
  {| Pin.id_area := "LAB";
     Pin.secuencia_gestos := [1; 2; 3; 4];
     Pin.estado := ACTIVO;
     Pin.intentos_fallidos := 2 |}.

Definition pin_boveda : Pin.t :=
  {| Pin.id_area := "BOVEDA";
     Pin.secuencia_gestos := [4; 3; 2; 1];
     Pin.estado := BLOQUEADO;
     Pin.intentos_fallidos := 3 |}.

Definition f (z : Z) : F.float := F.of_int z.

Definition patron_ana : Patron.t :=
  {| Patron.cedula_usuario := "101";
     Patron.secuencia_gestos := [1; 2; 3; 4; 5; 1; 2; 3; 4; 5];
     Patron.tiempos_entre_gestos :=
       Some [f 10; f 0; f 10; f 10; f 10; f 10; f 10; f 10; f 10; f 10] |}.

Definition mundo : Mundo :=
  {| repo_rfid :=
       <["RF-1" := cred_ana]> (<["RF-2" := cred_luis]>
                                 (<["RF-3" := cred_eva]> ∅));
     repo_pins := <["LAB" := pin_lab]> (<["BOVEDA" := pin_boveda]> ∅);
     repo_patrones := <["101" := patron_ana]> ∅;
     repo_accesos := [];
     traza := [];
     reloj := fun n => {| dt_fecha := dia; dt_micros := 36000000000 + Z.of_nat n |};
     lecturas_reloj := 0;
     uuids := fun n => if decide (n = 0%nat) then "uuid-0" else "uuid-n";
     uuids_usados := 0 |}.

(** Nine of the ten gestures of the pattern of [patron_ana]. *)
Definition casi_patron : list Z := [1; 2; 3; 4; 5; 1; 2; 3; 4; 9].

(** Delays at the two ends of the band around 10: 6 and 14. *)
Definition tiempos_borde : list F.float :=
  [f 6; f 99; f 14; f 10; f 10; f 10; f 10; f 10; f 10; f 10].

Definition sensor_pin_ok : ISensorGestos :=
  {| capturar_secuencia := fun _ _ => ([1; 2; 3; 4], None) |}.

Definition sensor_pin_corto : ISensorGestos :=
  {| capturar_secuencia := fun _ _ => ([1; 2; 3], None) |}.

Definition sensor_patron_ok : ISensorGestos :=
  {| capturar_secuencia := fun _ _ => (casi_patron, Some tiempos_borde) |}.

Definition sensor_patron_corto : ISensorGestos :=
  {| capturar_secuencia := fun _ _ => ([1; 2; 3; 4; 5; 1; 2], None) |}.

Definition puerta : IActuadorAcceso := {| actuador_nombre := "puerta-1" |}.

End Demo.

(** A pattern whose reference delays are all 45, and a capture of the same
    gestures whose first delay is 63, which is 45 plus forty per cent to
    the unit, the other delays being 45. *)
Module Borde.

Definition patron_45 : Patron.t :=
  {| Patron.cedula_usuario := "404";
     Patron.secuencia_gestos := [1; 2; 3; 4; 5; 1; 2; 3; 4; 5];
     Patron.tiempos_entre_gestos :=
       Some (replicate 10 (F.of_int 45)) |}.

Definition mundo : Mundo :=
  {| repo_rfid := repo_rfid Demo.mundo;
     repo_pins := repo_pins Demo.mundo;
     repo_patrones := <["404" := patron_45]> (repo_patrones Demo.mundo);
     repo_accesos := [];
     traza := [];
     reloj := reloj Demo.mundo;
     lecturas_reloj := 0;
     uuids := uuids Demo.mundo;
     uuids_usados := 0 |}.

Definition tiempos_63 : list F.float :=
  F.of_int 63 :: replicate 9 (F.of_int 45).

End Borde.

(** * Proofs *)

(** ** Running the monad *)

Ltac desplegar :=
  unfold mutar_cred, mutar_pin, actual_cred, actual_pin,
    obtener_por_serial, obtener_por_area, obtener_por_usuario, agregar,
    capturar, indicar_exito, abrir_puerta, datetime_now, uuid4,
    registrar, modificar, leer, lanzar,
    mbind, M_mbind, M_bind, mret, M_mret, M_ret.

Section Alter.
Context {V : Type}.
Implicit Types (m : gmap string V) (f g : V -> V).

Lemma alter_presente m k f x :
  m !! k = Some x -> alter f k m = <[k := f x]> m.
Proof.
  intros Hk. apply map_eq. intros j.
  destruct (decide (k = j)) as [<- | Hne].
  - by rewrite lookup_alter_eq, lookup_insert_eq, Hk.
  - by rewrite lookup_alter_ne, lookup_insert_ne.
Qed.

Lemma alter_tras_insert m k f x :
  alter f k (<[k := x]> m) = <[k := f x]> m.
Proof.
  rewrite (alter_presente _ k f x) by apply lookup_insert_eq.
  apply insert_insert_eq.
Qed.
End Alter.

Lemma validar_rfid_no_corresponde self w serial cedula ahora cred :
  repo_rfid w !! serial = Some cred ->
  Cred.cedula_propietario cred <> cedula ->
  validar_rfid self serial cedula ahora w =
    (con_repo_rfid
       (<[serial := Cred.con_intentos_fallidos (Cred.intentos_fallidos cred + 1) cred]>
          (repo_rfid w))
       (con_traza (traza w ++ [LlObtenerPorSerial serial]) w),
     inl (AutenticacionError RfidNoCorresponde)).
Proof.
  intros Hk Hne. unfold validar_rfid. desplegar. simpl.
  rewrite Hk. rewrite bool_decide_eq_false_2 by done. simpl.
  rewrite (alter_presente _ _ _ _ Hk). reflexivity.
Qed.

Lemma validar_rfid_no_encontrado self w serial cedula ahora :
  repo_rfid w !! serial = None ->
  validar_rfid self serial cedula ahora w =
    (con_traza (traza w ++ [LlObtenerPorSerial serial]) w, inl NoEncontrado).
Proof.
  intros Hk. unfold validar_rfid. desplegar. simpl. by rewrite Hk.
Qed.

Lemma validar_rfid_no_vigente self w serial cedula ahora cred :
  repo_rfid w !! serial = Some cred ->
  Cred.cedula_propietario cred = cedula ->
  Cred.esta_vigente cred (datetime_date ahora) = false ->
  validar_rfid self serial cedula ahora w =
    (con_repo_rfid
       (<[serial :=
            {| Cred.cedula_propietario := Cred.cedula_propietario cred;
               Cred.fecha_expiracion := Cred.fecha_expiracion cred;
               Cred.estado :=
                 if Cred.fecha_expiracion cred <? datetime_date ahora
                 then EXPIRADA else Cred.estado cred;
               Cred.intentos_fallidos := Cred.intentos_fallidos cred + 1;
               Cred.intentos_exitosos := Cred.intentos_exitosos cred;
               Cred.ultimo_acceso := Cred.ultimo_acceso cred |}]>
          (repo_rfid w))
       (con_traza (traza w ++ [LlObtenerPorSerial serial]) w),
     inl (AutenticacionError RfidNoVigente)).
Proof.
  intros Hk Hown Hvig. unfold validar_rfid. desplegar. simpl.
  rewrite Hk. rewrite bool_decide_eq_true_2 by done. simpl.
  rewrite Hvig. simpl.
  rewrite (alter_presente _ _ _ _ Hk), lookup_insert_eq. simpl.
  destruct (Cred.fecha_expiracion cred <? datetime_date ahora); simpl.
  - by rewrite alter_tras_insert.
  - reflexivity.
Qed.

Lemma validar_rfid_exito self w serial cedula ahora cred :
  repo_rfid w !! serial = Some cred ->
  Cred.cedula_propietario cred = cedula ->
  Cred.esta_vigente cred (datetime_date ahora) = true ->
  validar_rfid self serial cedula ahora w =
    (con_repo_rfid
       (<[serial :=
            {| Cred.cedula_propietario := Cred.cedula_propietario cred;
               Cred.fecha_expiracion := Cred.fecha_expiracion cred;
               Cred.estado := Cred.estado cred;
               Cred.intentos_fallidos := 0;
               Cred.intentos_exitosos := Cred.intentos_exitosos cred + 1;
               Cred.ultimo_acceso := Some ahora |}]>
          (repo_rfid w))
       (con_traza (traza w ++ [LlObtenerPorSerial serial]) w),
     inr tt).
Proof.
  intros Hk Hown Hvig. unfold validar_rfid. desplegar. simpl.
  rewrite Hk. rewrite bool_decide_eq_true_2 by done. simpl.
  rewrite Hvig. simpl.
  rewrite (alter_presente _ _ _ _ Hk).
  by rewrite !alter_tras_insert.
Qed.

Lemma validar_pin_bloqueado self w id_area sec pin :
  repo_pins w !! id_area = Some pin ->
  Pin.estado pin = BLOQUEADO ->
  validar_pin self id_area sec w =
    (con_traza (traza w ++ [LlObtenerPorArea id_area]) w,
     inl (AutenticacionError PinBloqueado)).
Proof.
  intros Hk Hb. unfold validar_pin. desplegar. simpl.
  rewrite Hk. by rewrite bool_decide_eq_true_2.
Qed.

Lemma validar_pin_incorrecto self w id_area sec pin :
  repo_pins w !! id_area = Some pin ->
  Pin.estado pin <> BLOQUEADO ->
  sec <> Pin.secuencia_gestos pin ->
  validar_pin self id_area sec w =
    (con_repo_pins
       (<[id_area :=
            {| Pin.id_area := Pin.id_area pin;
               Pin.secuencia_gestos := Pin.secuencia_gestos pin;
               Pin.estado :=
                 if max_intentos_pin self <=? Pin.intentos_fallidos pin + 1
                 then BLOQUEADO else Pin.estado pin;
               Pin.intentos_fallidos := Pin.intentos_fallidos pin + 1 |}]>
          (repo_pins w))
       (con_traza (traza w ++ [LlObtenerPorArea id_area]) w),
     inl (AutenticacionError PinIncorrecto)).
Proof.
  intros Hk Hb Hne. unfold validar_pin. desplegar. simpl.
  rewrite Hk. rewrite bool_decide_eq_false_2 by done.
  rewrite bool_decide_eq_false_2 by done. simpl.
  rewrite (alter_presente _ _ _ _ Hk), lookup_insert_eq. simpl.
  destruct (max_intentos_pin self <=? Pin.intentos_fallidos pin + 1); simpl.
  - by rewrite alter_tras_insert.
  - reflexivity.
Qed.

Lemma validar_pin_exito self w id_area sec pin :
  repo_pins w !! id_area = Some pin ->
  Pin.estado pin <> BLOQUEADO ->
  sec = Pin.secuencia_gestos pin ->
  validar_pin self id_area sec w =
    (con_repo_pins
       (<[id_area := Pin.con_intentos_fallidos 0 pin]> (repo_pins w))
       (con_traza (traza w ++ [LlObtenerPorArea id_area]) w),
     inr tt).
Proof.
  intros Hk Hb Heq. unfold validar_pin. desplegar. simpl.
  rewrite Hk. rewrite bool_decide_eq_false_2 by done.
  rewrite bool_decide_eq_true_2 by done. simpl.
  by rewrite (alter_presente _ _ _ _ Hk).
Qed.

(** ** Floats *)

Lemma F_compare_refl x : F.es_nan x = false -> SFcompare x x = Some Eq.
Proof.
  destruct x as [s | s | | s m e]; simpl; try done.
  - by destruct s.
  - intros _. rewrite Z.compare_refl, Pos.compare_cont_refl. by destruct s.
Qed.

Lemma F_leb_no_nan_l x y : F.leb x y = true -> F.es_nan x = false.
Proof. by destruct x. Qed.

Lemma F_leb_no_nan_r x y : F.leb x y = true -> F.es_nan y = false.
Proof. destruct x, y; done. Qed.

Lemma F_leb_refl x : F.es_nan x = false -> F.leb x x = true.
Proof.
  intros Hx. unfold F.leb, SFleb. by rewrite F_compare_refl.
Qed.

Lemma F_ltb_igual x y : SFcompare x y = Some Eq -> F.ltb x y = false.
Proof. intros H. unfold F.ltb, SFltb. by rewrite H. Qed.

(** ** Pattern: the count of agreeing positions *)


Lemma contar_coincidencias_desde (ref cap : list Z) (k : nat) (acc : Z) :
  fold_left
    (fun matches i =>
       if nth i ref 0 =? nth i cap 0 then matches + 1 else matches)
    (seq k (Nat.min (length ref - k) (length cap - k))) acc
  = acc + coincidencias (drop k ref) (drop k cap).
Proof.
  remember (Nat.min (length ref - k) (length cap - k)) as n eqn:Hn.
  revert k acc Hn. induction n as [| n IH]; intros k acc Hn.
  - cbn [seq fold_left]. unfold coincidencias, len.
    assert (zip (drop k ref) (drop k cap) = []) as ->; [| simpl; lia].
    apply length_zero_iff_nil. rewrite length_zip, !length_drop. lia.
  - assert (k < length ref)%nat as Hr by lia.
    assert (k < length cap)%nat as Hc by lia.
    destruct (lookup_lt_is_Some_2 ref k Hr) as [a Ha].
    destruct (lookup_lt_is_Some_2 cap k Hc) as [b Hb].
    rewrite (drop_S ref a k Ha), (drop_S cap b k Hb).
    cbn [seq fold_left]. rewrite IH by lia.
    rewrite (nth_lookup_Some ref k 0 a Ha), (nth_lookup_Some cap k 0 b Hb).
    unfold coincidencias, len. cbn [zip zip_with List.filter fst snd].
    destruct (a =? b); cbn [length]; lia.
Qed.

Lemma contar_coincidencias_spec ref cap :
  contar_coincidencias ref cap = coincidencias ref cap.
Proof.
  unfold contar_coincidencias.
  pose proof (contar_coincidencias_desde ref cap 0 0) as H.
  rewrite !Nat.sub_0_r, !drop_0 in H. rewrite H. lia.
Qed.

(** ** Pattern: the timing band *)


Lemma verificar_timings_corre pares w :
  verificar_timings pares w =
    (w, if forallb par_aceptado pares then inr tt
        else inl (AutenticacionError PatronTimings)).
Proof.
  induction pares as [| [ref got] resto IH]; [done |].
  cbn [verificar_timings forallb]. unfold par_aceptado at 1. cbn [fst snd].
  destruct (F.eqb ref (F.of_int 0)); [exact IH |].
  destruct (dentro_de_tolerancia ref got); [exact IH | done].
Qed.

Lemma verificar_timings_primero pre ref got resto w :
  forallb par_aceptado pre = true ->
  par_aceptado (ref, got) = false ->
  verificar_timings (pre ++ (ref, got) :: resto) w =
    (w, inl (AutenticacionError PatronTimings)).
Proof.
  intros Hpre Hbad. rewrite verificar_timings_corre.
  by rewrite forallb_app, Hpre; cbn [forallb andb]; rewrite Hbad.
Qed.

Lemma validar_patron_corre self w cedula sec tiempos patron :
  repo_patrones w !! cedula = Some patron ->
  sec <> [] ->
  validar_patron self cedula sec tiempos w =
    (con_traza (traza w ++ [LlObtenerPorUsuario cedula]) w,
     if F.ltb (similitud (Patron.secuencia_gestos patron) sec)
              (umbral_similitud_patron self)
     then inl (AutenticacionError
                 (PatronNoCoincide
                    (similitud (Patron.secuencia_gestos patron) sec)
                    (umbral_similitud_patron self)))
     else if timings_aceptados (Patron.tiempos_entre_gestos patron) tiempos
          then inr tt
          else inl (AutenticacionError PatronTimings)).
Proof.
  intros Hk Hsec. unfold validar_patron. desplegar. simpl.
  rewrite Hk.
  assert ((len sec =? 0) = false) as ->.
  { apply Z.eqb_neq. unfold len. destruct sec; [done | simpl; lia]. }
  destruct (F.ltb _ _); [done |].
  unfold timings_aceptados.
  destruct (Patron.tiempos_entre_gestos patron) as [refs |]; [| done].
  destruct tiempos as [gots |]; [| done].
  destruct (len refs =? len gots); [| done].
  apply verificar_timings_corre.
Qed.

Lemma validar_patron_exito self w cedula sec tiempos patron :
  repo_patrones w !! cedula = Some patron ->
  sec <> [] ->
  F.ltb (similitud (Patron.secuencia_gestos patron) sec)
        (umbral_similitud_patron self) = false ->
  timings_aceptados (Patron.tiempos_entre_gestos patron) tiempos = true ->
  validar_patron self cedula sec tiempos w =
    (con_traza (traza w ++ [LlObtenerPorUsuario cedula]) w, inr tt).
Proof.
  intros Hk Hsec Hsim Htim.
  rewrite (validar_patron_corre _ _ _ _ _ patron Hk Hsec).
  by rewrite Hsim, Htim.
Qed.

Lemma M_bind_inr {A B} (m : M A) (f : A -> M B) w w1 a :
  m w = (w1, inr a) -> (m ≫= f) w = f a w1.
Proof. intros H. unfold mbind, M_mbind, M_bind. by rewrite H. Qed.

Lemma M_bind_inl {A B} (m : M A) (f : A -> M B) w w1 e :
  m w = (w1, inl e) -> (m ≫= f) w = (w1, inl e).
Proof. intros H. unfold mbind, M_mbind, M_bind. by rewrite H. Qed.

Lemma capturar_corre s n g w :
  capturar s n g w =
    (con_traza (traza w ++ [LlCapturarSecuencia n g]) w,
     inr (capturar_secuencia s n g)).
Proof. reflexivity. Qed.


(** ** The RFID validator *)



(** C6. With a credential whose owner is not the expected user,
    [validar_rfid] raises the authentication error for the mismatch and
    leaves the credential as it was but for its count of failed attempts,
    which is one higher; its state and all its other attributes, the
    other credentials and the other repositories are untouched. *)
Theorem validar_rfid_propietario_distinto self w serial cedula ahora cred :
  repo_rfid w !! serial = Some cred ->
  Cred.cedula_propietario cred <> cedula ->
  validar_rfid self serial cedula ahora w =
    ({| repo_rfid :=
          <[serial :=
              {| Cred.cedula_propietario := Cred.cedula_propietario cred;
                 Cred.fecha_expiracion := Cred.fecha_expiracion cred;
                 Cred.estado := Cred.estado cred;
                 Cred.intentos_fallidos := Cred.intentos_fallidos cred + 1;
                 Cred.intentos_exitosos := Cred.intentos_exitosos cred;
                 Cred.ultimo_acceso := Cred.ultimo_acceso cred |}]>
            (repo_rfid w);
        repo_pins := repo_pins w;
        repo_patrones := repo_patrones w;
        repo_accesos := repo_accesos w;
        traza := traza w ++ [LlObtenerPorSerial serial];
        reloj := reloj w;
        lecturas_reloj := lecturas_reloj w;
        uuids := uuids w;
        uuids_usados := uuids_usados w |},
     inl (AutenticacionError RfidNoCorresponde)).
Proof.
  intros Hk Hown. by rewrite (validar_rfid_no_corresponde _ _ _ _ _ cred).
Qed.

Lemma validar_rfid_propietario_distinto_demo :
  validar_rfid servicio_por_defecto "RF-1" "202" Demo.ahora Demo.mundo =
    ({| repo_rfid :=
          <["RF-1" :=
              {| Cred.cedula_propietario := "101";
                 Cred.fecha_expiracion := Demo.dia + 30;
                 Cred.estado := ACTIVA;
                 Cred.intentos_fallidos := 2 + 1;
                 Cred.intentos_exitosos := 7;
                 Cred.ultimo_acceso := None |}]>
            (repo_rfid Demo.mundo);
        repo_pins := repo_pins Demo.mundo;
        repo_patrones := repo_patrones Demo.mundo;
        repo_accesos := [];
        traza := [] ++ [LlObtenerPorSerial "RF-1"];
        reloj := reloj Demo.mundo;
        lecturas_reloj := 0;
        uuids := uuids Demo.mundo;
        uuids_usados := 0 |},
     inl (AutenticacionError RfidNoCorresponde)).
Proof.
  apply (validar_rfid_propietario_distinto
           servicio_por_defecto Demo.mundo "RF-1" "202" Demo.ahora
           Demo.cred_ana).
  - reflexivity.
  - simpl. discriminate.
Defined.

(** C5. With a credential of the expected user that is not in force at
    the evaluation date, [validar_rfid] raises the authentication error,
    adds one to the count of failed attempts, and sets the state to
    [EXPIRADA] exactly when the evaluation date is strictly after the
    expiration date; otherwise the state is left as it was.  In force
    means: state [ACTIVA] and evaluation date not after the expiration
    date. *)
Theorem validar_rfid_no_vigente_expira self w serial cedula ahora cred :
  repo_rfid w !! serial = Some cred ->
  Cred.cedula_propietario cred = cedula ->
  Cred.esta_vigente cred (datetime_date ahora) = false ->
  validar_rfid self serial cedula ahora w =
    ({| repo_rfid :=
          <[serial :=
              {| Cred.cedula_propietario := Cred.cedula_propietario cred;
                 Cred.fecha_expiracion := Cred.fecha_expiracion cred;
                 Cred.estado :=
                   if Cred.fecha_expiracion cred <? datetime_date ahora
                   then EXPIRADA else Cred.estado cred;
                 Cred.intentos_fallidos := Cred.intentos_fallidos cred + 1;
                 Cred.intentos_exitosos := Cred.intentos_exitosos cred;
                 Cred.ultimo_acceso := Cred.ultimo_acceso cred |}]>
            (repo_rfid w);
        repo_pins := repo_pins w;
        repo_patrones := repo_patrones w;
        repo_accesos := repo_accesos w;
        traza := traza w ++ [LlObtenerPorSerial serial];
        reloj := reloj w;
        lecturas_reloj := lecturas_reloj w;
        uuids := uuids w;
        uuids_usados := uuids_usados w |},
     inl (AutenticacionError RfidNoVigente))
  /\ (forall c fecha,
        Cred.esta_vigente c fecha = true <->
        Cred.estado c = ACTIVA /\ fecha <= Cred.fecha_expiracion c).
Proof.
  intros Hk Hown Hvig. split.
  - by rewrite (validar_rfid_no_vigente _ _ _ _ _ cred).
  - intros c fecha. unfold Cred.esta_vigente.
    rewrite andb_true_iff, bool_decide_eq_true, Z.leb_le. done.
Qed.

(** Run on the inactive credential, on its expiration date: one more
    failed attempt, and the state stays [INACTIVA]. *)
Lemma validar_rfid_no_vigente_expira_demo :
  validar_rfid servicio_por_defecto "RF-3" "303" Demo.ahora Demo.mundo =
    ({| repo_rfid :=
          <["RF-3" :=
              {| Cred.cedula_propietario := "303";
                 Cred.fecha_expiracion := Demo.dia;
                 Cred.estado := INACTIVA;
                 Cred.intentos_fallidos := 0 + 1;
                 Cred.intentos_exitosos := 1;
                 Cred.ultimo_acceso := None |}]>
            (repo_rfid Demo.mundo);
        repo_pins := repo_pins Demo.mundo;
        repo_patrones := repo_patrones Demo.mundo;
        repo_accesos := [];
        traza := [] ++ [LlObtenerPorSerial "RF-3"];
        reloj := reloj Demo.mundo;
        lecturas_reloj := 0;
        uuids := uuids Demo.mundo;
        uuids_usados := 0 |},
     inl (AutenticacionError RfidNoVigente)).
Proof.
  apply (validar_rfid_no_vigente_expira
           servicio_por_defecto Demo.mundo "RF-3" "303" Demo.ahora
           Demo.cred_eva); reflexivity.
Defined.

(** C10. With a credential of the expected user that is not in force and
    whose expiration date is strictly before the evaluation date,
    [validar_rfid] leaves the credential in state [EXPIRADA] whatever its
    state was before, [BLOQUEADA] and [INACTIVA] included. *)
Theorem validar_rfid_expira_bloqueada self w serial cedula ahora cred :
  repo_rfid w !! serial = Some cred ->
  Cred.cedula_propietario cred = cedula ->
  Cred.esta_vigente cred (datetime_date ahora) = false ->
  Cred.fecha_expiracion cred < datetime_date ahora ->
  validar_rfid self serial cedula ahora w =
    ({| repo_rfid :=
          <[serial :=
              {| Cred.cedula_propietario := Cred.cedula_propietario cred;
                 Cred.fecha_expiracion := Cred.fecha_expiracion cred;
                 Cred.estado := EXPIRADA;
                 Cred.intentos_fallidos := Cred.intentos_fallidos cred + 1;
                 Cred.intentos_exitosos := Cred.intentos_exitosos cred;
                 Cred.ultimo_acceso := Cred.ultimo_acceso cred |}]>
            (repo_rfid w);
        repo_pins := repo_pins w;
        repo_patrones := repo_patrones w;
        repo_accesos := repo_accesos w;
        traza := traza w ++ [LlObtenerPorSerial serial];
        reloj := reloj w;
        lecturas_reloj := lecturas_reloj w;
        uuids := uuids w;
        uuids_usados := uuids_usados w |},
     inl (AutenticacionError RfidNoVigente)).
Proof.
  intros Hk Hown Hvig Hexp.
  rewrite (validar_rfid_no_vigente _ _ _ _ _ cred) by done.
  apply Z.ltb_lt in Hexp. by rewrite Hexp.
Qed.

(** Run on the blocked credential, a day after its expiration date. *)
Lemma validar_rfid_expira_bloqueada_demo :
  Cred.estado Demo.cred_luis = BLOQUEADA /\
  validar_rfid servicio_por_defecto "RF-2" "202" Demo.ahora Demo.mundo =
    ({| repo_rfid :=
          <["RF-2" :=
              {| Cred.cedula_propietario := "202";
                 Cred.fecha_expiracion := Demo.dia - 1;
                 Cred.estado := EXPIRADA;
                 Cred.intentos_fallidos := 5 + 1;
                 Cred.intentos_exitosos := 0;
                 Cred.ultimo_acceso := None |}]>
            (repo_rfid Demo.mundo);
        repo_pins := repo_pins Demo.mundo;
        repo_patrones := repo_patrones Demo.mundo;
        repo_accesos := [];
        traza := [] ++ [LlObtenerPorSerial "RF-2"];
        reloj := reloj Demo.mundo;
        lecturas_reloj := 0;
        uuids := uuids Demo.mundo;
        uuids_usados := 0 |},
     inl (AutenticacionError RfidNoVigente)).
Proof.
  split; [reflexivity |].
  apply (validar_rfid_expira_bloqueada
           servicio_por_defecto Demo.mundo "RF-2" "202" Demo.ahora
           Demo.cred_luis); reflexivity.
Defined.



(** ** The PIN validator *)

(** C3. With an active PIN holding [k] failed attempts and a captured
    sequence other than the reference one, [validar_pin] raises the
    authentication error for a wrong PIN and leaves the PIN with [k + 1]
    failed attempts, in state [BLOQUEADO] if [k + 1] has reached
    [max_intentos_pin] and still [ACTIVO] otherwise. *)
Theorem validar_pin_incorrecto_bloquea self w id_area sec pin :
  repo_pins w !! id_area = Some pin ->
  Pin.estado pin = ACTIVO ->
  sec <> Pin.secuencia_gestos pin ->
  validar_pin self id_area sec w =
    ({| repo_rfid := repo_rfid w;
        repo_pins :=
          <[id_area :=
              {| Pin.id_area := Pin.id_area pin;
                 Pin.secuencia_gestos := Pin.secuencia_gestos pin;
                 Pin.estado :=
                   if max_intentos_pin self <=? Pin.intentos_fallidos pin + 1
                   then BLOQUEADO else ACTIVO;
                 Pin.intentos_fallidos := Pin.intentos_fallidos pin + 1 |}]>
            (repo_pins w);
        repo_patrones := repo_patrones w;
        repo_accesos := repo_accesos w;
        traza := traza w ++ [LlObtenerPorArea id_area];
        reloj := reloj w;
        lecturas_reloj := lecturas_reloj w;
        uuids := uuids w;
        uuids_usados := uuids_usados w |},
     inl (AutenticacionError PinIncorrecto)).
Proof.
  intros Hk Hact Hne.
  rewrite (validar_pin_incorrecto _ _ _ _ pin) by (done || congruence).
  by rewrite Hact.
Qed.

(** The third wrong PIN in a row on the laboratory blocks it. *)
Lemma validar_pin_incorrecto_bloquea_demo :
  validar_pin servicio_por_defecto "LAB" [1; 2; 3; 5] Demo.mundo =
    ({| repo_rfid := repo_rfid Demo.mundo;
        repo_pins :=
          <["LAB" :=
              {| Pin.id_area := "LAB";
                 Pin.secuencia_gestos := [1; 2; 3; 4];
                 Pin.estado := if 3 <=? 2 + 1 then BLOQUEADO else ACTIVO;
                 Pin.intentos_fallidos := 2 + 1 |}]>
            (repo_pins Demo.mundo);
        repo_patrones := repo_patrones Demo.mundo;
        repo_accesos := [];
        traza := [] ++ [LlObtenerPorArea "LAB"];
        reloj := reloj Demo.mundo;
        lecturas_reloj := 0;
        uuids := uuids Demo.mundo;
        uuids_usados := 0 |},
     inl (AutenticacionError PinIncorrecto)).
Proof.
  apply (validar_pin_incorrecto_bloquea
           servicio_por_defecto Demo.mundo "LAB" [1; 2; 3; 5] Demo.pin_lab).
  - reflexivity.
  - reflexivity.
  - simpl. discriminate.
Defined.

Lemma intentos_pin_bloqueado self id_area pin secs : forall w,
  repo_pins w !! id_area = Some pin ->
  Pin.estado pin = BLOQUEADO ->
  repo_pins (intentar_todos (intentos_pin self id_area secs) w).1
    = repo_pins w
  /\ (intentar_todos (intentos_pin self id_area secs) w).2
    = map (fun _ => inl (AutenticacionError PinBloqueado)) secs.
Proof.
  induction secs as [| sec resto IH]; intros w Hk Hb; [done |].
  cbn [intentos_pin map intentar_todos]. fold (intentos_pin self id_area resto).
  rewrite (validar_pin_bloqueado _ _ _ _ pin Hk Hb).
  destruct (IH (con_traza (traza w ++ [LlObtenerPorArea id_area]) w) Hk Hb)
    as [Hrepo Hres].
  destruct (intentar_todos _ _) as [w2 rs]. cbn [fst snd] in *.
  by rewrite Hrepo, Hres.
Qed.

(** C4. With a blocked PIN, [validar_pin] raises the authentication error
    for a blocked PIN at once, whatever sequence was captured, and
    changes nothing in the world but the log of calls; so after any
    number of further attempts the PIN is as it was, still blocked and
    with the same count of failed attempts, and each attempt was
    refused. *)
Theorem validar_pin_bloqueado_permanece self w id_area pin :
  repo_pins w !! id_area = Some pin ->
  Pin.estado pin = BLOQUEADO ->
  (forall sec,
     validar_pin self id_area sec w =
       ({| repo_rfid := repo_rfid w;
           repo_pins := repo_pins w;
           repo_patrones := repo_patrones w;
           repo_accesos := repo_accesos w;
           traza := traza w ++ [LlObtenerPorArea id_area];
           reloj := reloj w;
           lecturas_reloj := lecturas_reloj w;
           uuids := uuids w;
           uuids_usados := uuids_usados w |},
        inl (AutenticacionError PinBloqueado)))
  /\ (forall secs,
        repo_pins (intentar_todos (intentos_pin self id_area secs) w).1
          = repo_pins w
        /\ (intentar_todos (intentos_pin self id_area secs) w).2
          = map (fun _ => inl (AutenticacionError PinBloqueado)) secs).
Proof.
  intros Hk Hb. split.
  - intros sec. by rewrite (validar_pin_bloqueado _ _ _ _ pin).
  - intros secs. by apply (intentos_pin_bloqueado _ _ pin).
Qed.

(** The vault stays blocked, also under its own reference sequence. *)
Lemma validar_pin_bloqueado_permanece_demo :
  repo_pins
    (intentar_todos
       (intentos_pin servicio_por_defecto "BOVEDA"
          [[4; 3; 2; 1]; [1; 1; 1; 1]; [4; 3; 2; 1]]) Demo.mundo).1
  !! "BOVEDA" = Some Demo.pin_boveda.
Proof.
  destruct (validar_pin_bloqueado_permanece
              servicio_por_defecto Demo.mundo "BOVEDA" Demo.pin_boveda
              eq_refl eq_refl) as [_ Hsecs].
  destruct (Hsecs [[4; 3; 2; 1]; [1; 1; 1; 1]; [4; 3; 2; 1]]) as [-> _].
  reflexivity.
Defined.

(** ** The pattern matcher *)

Lemma forallb_zip_lookup (P : F.float * F.float -> bool) (r g : list F.float) :
  length r = length g ->
  forallb P (zip r g) = true <->
  forall (i : nat) ref got,
    r !! i = Some ref -> g !! i = Some got -> P (ref, got) = true.
Proof.
  revert g. induction r as [| a r IH]; intros [| b g] Hlen; try done.
  cbn [zip zip_with forallb]. rewrite andb_true_iff.
  rewrite IH by (simpl in Hlen; lia). split.
  - intros [Hab Hresto] [| i] ref got Hr Hg.
    + cbn in Hr, Hg. by simplify_eq.
    + cbn in Hr, Hg. by eapply Hresto.
  - intros Hall. split.
    + by apply (Hall 0%nat).
    + intros i ref got Hr Hg. by apply (Hall (S i)).
Qed.

Lemma forallb_zip_falla (P : F.float * F.float -> bool) (r g : list F.float) :
  length r = length g ->
  forallb P (zip r g) = false <->
  exists (i : nat) ref got,
    r !! i = Some ref /\ g !! i = Some got /\ P (ref, got) = false.
Proof.
  revert g. induction r as [| a r IH]; intros [| b g] Hlen; try done.
  - cbn. split; [done |]. by intros (i & ref & got & Hr & _).
  - cbn [zip zip_with forallb]. rewrite andb_false_iff.
    rewrite IH by (simpl in Hlen; lia). split.
    + intros [Hab | (i & ref & got & Hr & Hg & HP)].
      * by exists 0%nat, a, b.
      * by exists (S i), ref, got.
    + intros ([| i] & ref & got & Hr & Hg & HP).
      * cbn in Hr, Hg. simplify_eq. by left.
      * right. by exists i, ref, got.
Qed.

Lemma par_aceptado_iff ref got :
  par_aceptado (ref, got) = true <->
  (F.eqb ref (F.of_int 0) = false ->
   F.leb (F.mul F.c0_6 ref) got = true /\ F.leb got (F.mul F.c1_4 ref) = true).
Proof.
  unfold par_aceptado, dentro_de_tolerancia. cbn [fst snd].
  destruct (F.eqb ref (F.of_int 0)); cbn [orb].
  - split; [done | done].
  - rewrite andb_true_iff. split; [by intros H _ | by intros H; apply H].
Qed.

Lemma par_rechazado_iff ref got :
  par_aceptado (ref, got) = false <->
  F.eqb ref (F.of_int 0) = false /\ dentro_de_tolerancia ref got = false.
Proof.
  unfold par_aceptado. cbn [fst snd]. by rewrite orb_false_iff.
Qed.

Lemma len_igual {A B} (r : list A) (g : list B) :
  (len r =? len g) = true <-> length r = length g.
Proof. unfold len. rewrite Z.eqb_eq. lia. Qed.

Lemma len_distinto {A B} (r : list A) (g : list B) :
  (len r =? len g) = false <-> length r <> length g.
Proof. unfold len. rewrite Z.eqb_neq. lia. Qed.

Lemma dentro_de_tolerancia_bordes ref :
  F.leb (F.mul F.c0_6 ref) (F.mul F.c1_4 ref) = true ->
  dentro_de_tolerancia ref (F.mul F.c0_6 ref) = true
  /\ dentro_de_tolerancia ref (F.mul F.c1_4 ref) = true.
Proof.
  intros Hband. unfold dentro_de_tolerancia. rewrite Hband.
  rewrite (F_leb_refl (F.mul F.c0_6 ref)) by by eapply F_leb_no_nan_l.
  rewrite (F_leb_refl (F.mul F.c1_4 ref)) by by eapply F_leb_no_nan_r.
  done.
Qed.

(** C2. For a stored pattern and a captured sequence that is not empty,
    the similarity [validar_patron] computes is the number of positions
    of the overlap at which the two sequences agree, divided by the
    larger of the two lengths; the call raises the authentication error
    for a pattern mismatch, carrying that similarity and the threshold,
    exactly when the similarity is below [umbral_similitud_patron], and a
    similarity equal to the threshold raises no such error. *)
Theorem validar_patron_umbral self w cedula sec tiempos patron :
  repo_patrones w !! cedula = Some patron ->
  sec <> [] ->
  similitud (Patron.secuencia_gestos patron) sec =
    F.div (F.of_int (coincidencias (Patron.secuencia_gestos patron) sec))
          (F.of_int (Z.max (len (Patron.secuencia_gestos patron)) (len sec)))
  /\ (validar_patron self cedula sec tiempos w =
        (con_traza (traza w ++ [LlObtenerPorUsuario cedula]) w,
         inl (AutenticacionError
                (PatronNoCoincide
                   (similitud (Patron.secuencia_gestos patron) sec)
                   (umbral_similitud_patron self))))
      <-> F.ltb (similitud (Patron.secuencia_gestos patron) sec)
                (umbral_similitud_patron self) = true)
  /\ (forall s u,
        (validar_patron self cedula sec tiempos w).2 =
          inl (AutenticacionError (PatronNoCoincide s u)) ->
        F.ltb (similitud (Patron.secuencia_gestos patron) sec)
              (umbral_similitud_patron self) = true)
  /\ (SFcompare (similitud (Patron.secuencia_gestos patron) sec)
                (umbral_similitud_patron self) = Some Eq ->
      forall s u,
        (validar_patron self cedula sec tiempos w).2 <>
          inl (AutenticacionError (PatronNoCoincide s u))).
Proof.
  intros Hk Hsec.
  rewrite (validar_patron_corre _ _ _ _ _ patron Hk Hsec).
  split; [| split; [| split]].
  - unfold similitud. by rewrite contar_coincidencias_spec.
  - destruct (F.ltb _ _); [done |]. split; [| done].
    destruct (timings_aceptados _ _); intros [= ].
  - intros s u. cbn [snd]. destruct (F.ltb _ _); [done |].
    by destruct (timings_aceptados _ _).
  - intros Heq s u. cbn [snd]. rewrite (F_ltb_igual _ _ Heq).
    by destruct (timings_aceptados _ _).
Qed.

(** Nine gestures of ten against the default threshold 0.9: the
    similarity is the threshold itself, and the call goes through. *)
Lemma validar_patron_umbral_demo :
  SFcompare
    (similitud (Patron.secuencia_gestos Demo.patron_ana) Demo.casi_patron)
    (umbral_similitud_patron servicio_por_defecto) = Some Eq
  /\ forall s u,
      (validar_patron servicio_por_defecto "101" Demo.casi_patron None
         Demo.mundo).2
      <> inl (AutenticacionError (PatronNoCoincide s u)).
Proof.
  assert (SFcompare
            (similitud (Patron.secuencia_gestos Demo.patron_ana)
               Demo.casi_patron)
            (umbral_similitud_patron servicio_por_defecto) = Some Eq)
    as Heq by (vm_compute; reflexivity).
  split; [exact Heq |].
  destruct (validar_patron_umbral servicio_por_defecto Demo.mundo "101"
              Demo.casi_patron None Demo.patron_ana eq_refl)
    as (_ & _ & _ & Higual); [discriminate |].
  exact (Higual Heq).
Defined.

(** C8 (amended). Once the similarity has passed: the timing check is
    skipped, and the call succeeds, when a timing sequence is missing or
    the two have different lengths; when both are there with equal
    lengths the call succeeds exactly if every pair whose reference delay
    is not zero has its captured delay between the two bounds the code
    computes, the binary64 products [0.6 * ref] and [1.4 * ref], bounds
    included, and raises the timing error exactly if some pair with a
    nonzero reference delay is outside; the first such pair settles the
    outcome whatever pairs follow; and the comparisons are inclusive on
    the computed bounds: whenever the computed lower bound is not above
    the computed upper bound, a captured delay equal to either of them
    is accepted.  The computed bounds are rounded products: a delay that
    is forty per cent above the reference to the unit can lie above the
    computed upper bound, and is then refused. *)
Theorem validar_patron_timings self w cedula sec tiempos patron :
  repo_patrones w !! cedula = Some patron ->
  sec <> [] ->
  F.ltb (similitud (Patron.secuencia_gestos patron) sec)
        (umbral_similitud_patron self) = false ->
  ((Patron.tiempos_entre_gestos patron = None
    \/ tiempos = None
    \/ (exists r g, Patron.tiempos_entre_gestos patron = Some r
                    /\ tiempos = Some g /\ length r <> length g)) ->
   validar_patron self cedula sec tiempos w =
     (con_traza (traza w ++ [LlObtenerPorUsuario cedula]) w, inr tt))
  /\ (forall r g,
        Patron.tiempos_entre_gestos patron = Some r ->
        tiempos = Some g ->
        length r = length g ->
        (validar_patron self cedula sec tiempos w =
           (con_traza (traza w ++ [LlObtenerPorUsuario cedula]) w, inr tt)
         <-> forall (i : nat) ref got,
               r !! i = Some ref -> g !! i = Some got ->
               F.eqb ref (F.of_int 0) = false ->
               F.leb (F.mul F.c0_6 ref) got = true
               /\ F.leb got (F.mul F.c1_4 ref) = true)
        /\ (validar_patron self cedula sec tiempos w =
              (con_traza (traza w ++ [LlObtenerPorUsuario cedula]) w,
               inl (AutenticacionError PatronTimings))
            <-> exists (i : nat) ref got,
                  r !! i = Some ref /\ g !! i = Some got
                  /\ F.eqb ref (F.of_int 0) = false
                  /\ dentro_de_tolerancia ref got = false))
  /\ (forall pre ref got resto w',
        forallb par_aceptado pre = true ->
        F.eqb ref (F.of_int 0) = false ->
        dentro_de_tolerancia ref got = false ->
        verificar_timings (pre ++ (ref, got) :: resto) w' =
          (w', inl (AutenticacionError PatronTimings)))
  /\ (forall ref,
        F.leb (F.mul F.c0_6 ref) (F.mul F.c1_4 ref) = true ->
        dentro_de_tolerancia ref (F.mul F.c0_6 ref) = true
        /\ dentro_de_tolerancia ref (F.mul F.c1_4 ref) = true).
Proof.
  intros Hk Hsec Hsim.
  rewrite (validar_patron_corre _ _ _ _ _ patron Hk Hsec), Hsim.
  split; [| split; [| split]].
  - intros [-> | [-> | (r & g & -> & -> & Hlen)]].
    + done.
    + by destruct (Patron.tiempos_entre_gestos patron).
    + cbn [timings_aceptados]. apply len_distinto in Hlen. by rewrite Hlen.
  - intros r g -> -> Hlen. cbn [timings_aceptados].
    rewrite (proj2 (len_igual r g) Hlen).
    pose proof (forallb_zip_lookup par_aceptado r g Hlen) as Hsi.
    pose proof (forallb_zip_falla par_aceptado r g Hlen) as Hno.
    destruct (forallb par_aceptado (zip r g)); split.
    + split; [| done]. intros _ i ref got Hr Hg.
      apply par_aceptado_iff. by apply (proj1 Hsi eq_refl i).
    + split; [intros [= ] |]. intros (i & ref & got & Hr & Hg & Hbad).
      apply par_rechazado_iff in Hbad.
      rewrite (proj1 Hsi eq_refl i ref got Hr Hg) in Hbad. discriminate.
    + split; [intros [= ] |]. intros Hall.
      assert (false = true) as [= ]. apply Hsi. intros i ref got Hr Hg.
      apply par_aceptado_iff. by apply (Hall i).
    + split; [| done]. intros _.
      destruct (proj1 Hno eq_refl) as (i & ref & got & Hr & Hg & Hbad).
      exists i, ref, got. by rewrite <- par_rechazado_iff.
  - intros pre ref got resto w' Hpre Hnz Hout.
    apply verificar_timings_primero; [done |]. by apply par_rechazado_iff.
  - apply dentro_de_tolerancia_bordes.
Qed.

(** Delays of 6 and of 14 against a reference delay of 10, the two ends
    of its band, are let through. *)
Lemma validar_patron_timings_demo :
  (F.leb (F.mul F.c0_6 (Demo.f 10)) (Demo.f 6) = true
   /\ F.leb (Demo.f 6) (F.mul F.c1_4 (Demo.f 10)) = true)
  /\ (F.leb (F.mul F.c0_6 (Demo.f 10)) (Demo.f 14) = true
      /\ F.leb (Demo.f 14) (F.mul F.c1_4 (Demo.f 10)) = true).
Proof.
  destruct (validar_patron_timings servicio_por_defecto Demo.mundo "101"
              Demo.casi_patron (Some Demo.tiempos_borde) Demo.patron_ana)
    as (_ & Hpares & _).
  - reflexivity.
  - discriminate.
  - vm_compute. reflexivity.
  - destruct (Hpares _ _ eq_refl eq_refl eq_refl) as [[Htodos _] _].
    assert (validar_patron servicio_por_defecto "101" Demo.casi_patron
              (Some Demo.tiempos_borde) Demo.mundo
            = (con_traza (traza Demo.mundo ++ [LlObtenerPorUsuario "101"])
                 Demo.mundo, inr tt)) as Hrun.
    { apply (validar_patron_exito _ _ _ _ _ Demo.patron_ana);
        [reflexivity | discriminate | vm_compute; reflexivity
        | vm_compute; reflexivity]. }
    split.
    + apply (Htodos Hrun 0%nat (Demo.f 10) (Demo.f 6));
        vm_compute; reflexivity.
    + apply (Htodos Hrun 2%nat (Demo.f 10) (Demo.f 14));
        vm_compute; reflexivity.
Defined.

(** The boundary of the band as the real numbers have it is not always
    accepted.  Reference delay 45, captured delay 63: both are floats
    without rounding, the reference is not zero, and 63 is 1.4 times 45
    to the unit (14 * 45 = 10 * 63); yet the product the code computes,
    [1.4 * 45.0], is the double just below 63, so the pair is outside the
    band and [validar_patron] raises the timing error on a capture that
    matches the pattern gesture for gesture. *)
Lemma validar_patron_timings_borde_exacto :
  14 * 45 = 10 * 63
  /\ F.eqb (F.of_int 45) (F.of_int 0) = false
  /\ F.ltb (F.mul F.c1_4 (F.of_int 45)) (F.of_int 63) = true
  /\ dentro_de_tolerancia (F.of_int 45) (F.of_int 63) = false
  /\ F.ltb (similitud (Patron.secuencia_gestos Borde.patron_45)
              [1; 2; 3; 4; 5; 1; 2; 3; 4; 5])
           (umbral_similitud_patron servicio_por_defecto) = false
  /\ (validar_patron servicio_por_defecto "404"
        [1; 2; 3; 4; 5; 1; 2; 3; 4; 5] (Some Borde.tiempos_63)
        Borde.mundo).2
     = inl (AutenticacionError PatronTimings).
Proof.
  split; [reflexivity |].
  split; [vm_compute; reflexivity |].
  split; [vm_compute; reflexivity |].
  split; [vm_compute; reflexivity |].
  split; [vm_compute; reflexivity |].
  rewrite (validar_patron_corre _ _ _ _ _ Borde.patron_45);
    [| reflexivity | discriminate].
  vm_compute. reflexivity.
Qed.

(** ** The orchestrator *)

(** C1. When the three factors succeed (the tag belongs to the user and
    is in force at the time read at the start; the PIN capture has four
    gestures and equals the reference of a PIN that is not blocked; the
    pattern capture has ten gestures and passes similarity and timing),
    [autenticar_mfa] reads the clock once, signals success and then opens
    the door, once each and after the last lookup, then builds the access
    record with the user, the area, that one time (the same the
    credential keeps as its last access) and an empty reference, adds it
    to the repository of accesses, and returns it. *)
Theorem autenticar_mfa_exito self w cedula id_area serial
    sensor_pin sensor_patron actuador gesto
    cred pin patron sec_pin t_pin sec_pat tiempos :
  repo_rfid w !! serial = Some cred ->
  Cred.cedula_propietario cred = cedula ->
  Cred.esta_vigente cred (datetime_date (reloj w (lecturas_reloj w))) = true ->
  capturar_secuencia sensor_pin 4 gesto = (sec_pin, t_pin) ->
  len sec_pin = 4 ->
  repo_pins w !! id_area = Some pin ->
  Pin.estado pin <> BLOQUEADO ->
  sec_pin = Pin.secuencia_gestos pin ->
  capturar_secuencia sensor_patron 10 gesto = (sec_pat, tiempos) ->
  len sec_pat = 10 ->
  repo_patrones w !! cedula = Some patron ->
  F.ltb (similitud (Patron.secuencia_gestos patron) sec_pat)
        (umbral_similitud_patron self) = false ->
  timings_aceptados (Patron.tiempos_entre_gestos patron) tiempos = true ->
  autenticar_mfa self cedula id_area serial sensor_pin sensor_patron
                 actuador gesto w =
    ({| repo_rfid :=
          <[serial :=
              {| Cred.cedula_propietario := Cred.cedula_propietario cred;
                 Cred.fecha_expiracion := Cred.fecha_expiracion cred;
                 Cred.estado := Cred.estado cred;
                 Cred.intentos_fallidos := 0;
                 Cred.intentos_exitosos := Cred.intentos_exitosos cred + 1;
                 Cred.ultimo_acceso := Some (reloj w (lecturas_reloj w)) |}]>
            (repo_rfid w);
        repo_pins :=
          <[id_area := Pin.con_intentos_fallidos 0 pin]> (repo_pins w);
        repo_patrones := repo_patrones w;
        repo_accesos :=
          repo_accesos w ++
            [{| Acceso.id_acceso := uuids w (uuids_usados w);
                Acceso.cedula_usuario := cedula;
                Acceso.id_area := id_area;
                Acceso.fecha_entrada := reloj w (lecturas_reloj w);
                Acceso.registro_exitoso_id := "" |}];
        traza :=
          traza w ++
            [LlObtenerPorSerial serial;
             LlCapturarSecuencia 4 gesto;
             LlObtenerPorArea id_area;
             LlCapturarSecuencia 10 gesto;
             LlObtenerPorUsuario cedula;
             LlIndicarExito actuador;
             LlAbrirPuerta actuador;
             LlAgregar
               {| Acceso.id_acceso := uuids w (uuids_usados w);
                  Acceso.cedula_usuario := cedula;
                  Acceso.id_area := id_area;
                  Acceso.fecha_entrada := reloj w (lecturas_reloj w);
                  Acceso.registro_exitoso_id := "" |}];
        reloj := reloj w;
        lecturas_reloj := S (lecturas_reloj w);
        uuids := uuids w;
        uuids_usados := S (uuids_usados w) |},
     inr {| Acceso.id_acceso := uuids w (uuids_usados w);
            Acceso.cedula_usuario := cedula;
            Acceso.id_area := id_area;
            Acceso.fecha_entrada := reloj w (lecturas_reloj w);
            Acceso.registro_exitoso_id := "" |}).
Proof.
  intros Hcred Hown Hvig Hcap1 Hlen1 Hpin Hact Hsec Hcap2 Hlen2 Hpat Hsim Htim.
  unfold autenticar_mfa.
  rewrite (M_bind_inr datetime_now _ w _ _ eq_refl).
  erewrite M_bind_inr; [| by apply (validar_rfid_exito _ _ _ _ _ cred)].
  erewrite M_bind_inr; [| apply capturar_corre].
  rewrite Hcap1.
  assert ((len sec_pin =? 4) = true) as -> by (by apply Z.eqb_eq).
  cbn [negb].
  erewrite M_bind_inr; [| by apply (validar_pin_exito _ _ _ _ pin)].
  erewrite M_bind_inr; [| apply capturar_corre].
  rewrite Hcap2.
  assert ((len sec_pat =? 10) = true) as -> by (by apply Z.eqb_eq).
  cbn [negb].
  erewrite M_bind_inr;
    [| apply (validar_patron_exito _ _ _ _ _ patron); try done].
  2: { intros ->. discriminate Hlen2. }
  desplegar. simpl. rewrite <- !app_assoc. reflexivity.
Qed.

(** A full run for the user 101 at the laboratory. *)
Lemma autenticar_mfa_exito_demo :
  (autenticar_mfa servicio_por_defecto "101" "LAB" "RF-1"
     Demo.sensor_pin_ok Demo.sensor_patron_ok Demo.puerta (Some 0)
     Demo.mundo).2
  = inr {| Acceso.id_acceso := "uuid-0";
           Acceso.cedula_usuario := "101";
           Acceso.id_area := "LAB";
           Acceso.fecha_entrada := Demo.ahora;
           Acceso.registro_exitoso_id := "" |}.
Proof.
  rewrite (autenticar_mfa_exito servicio_por_defecto Demo.mundo
             "101" "LAB" "RF-1"
             Demo.sensor_pin_ok Demo.sensor_patron_ok Demo.puerta (Some 0)
             Demo.cred_ana Demo.pin_lab Demo.patron_ana
             [1; 2; 3; 4] None Demo.casi_patron (Some Demo.tiempos_borde)).
  - reflexivity.
  - reflexivity.
  - reflexivity.
  - reflexivity.
  - reflexivity.
  - reflexivity.
  - reflexivity.
  - discriminate.
  - reflexivity.
  - reflexivity.
  - reflexivity.
  - reflexivity.
  - vm_compute. reflexivity.
  - vm_compute. reflexivity.
Defined.

(** C7. Once the tag has been accepted: if the PIN capture does not have
    four gestures, [autenticar_mfa] raises the authentication error for
    an incomplete PIN right after the capture, with no lookup of the PIN,
    and the repository of PINs is as it was; if the PIN went through and
    the pattern capture does not have ten gestures, it raises the error
    for an incomplete pattern right after that capture, with no lookup of
    the pattern, and the repository of patterns is as it was. *)
Theorem autenticar_mfa_captura_incompleta self w cedula id_area serial
    sensor_pin sensor_patron actuador gesto cred sec_pin t_pin :
  repo_rfid w !! serial = Some cred ->
  Cred.cedula_propietario cred = cedula ->
  Cred.esta_vigente cred (datetime_date (reloj w (lecturas_reloj w))) = true ->
  capturar_secuencia sensor_pin 4 gesto = (sec_pin, t_pin) ->
  (len sec_pin <> 4 ->
   autenticar_mfa self cedula id_area serial sensor_pin sensor_patron
                  actuador gesto w =
     ({| repo_rfid :=
           <[serial :=
               {| Cred.cedula_propietario := Cred.cedula_propietario cred;
                  Cred.fecha_expiracion := Cred.fecha_expiracion cred;
                  Cred.estado := Cred.estado cred;
                  Cred.intentos_fallidos := 0;
                  Cred.intentos_exitosos := Cred.intentos_exitosos cred + 1;
                  Cred.ultimo_acceso := Some (reloj w (lecturas_reloj w)) |}]>
             (repo_rfid w);
         repo_pins := repo_pins w;
         repo_patrones := repo_patrones w;
         repo_accesos := repo_accesos w;
         traza :=
           traza w ++
             [LlObtenerPorSerial serial; LlCapturarSecuencia 4 gesto];
         reloj := reloj w;
         lecturas_reloj := S (lecturas_reloj w);
         uuids := uuids w;
         uuids_usados := uuids_usados w |},
      inl (AutenticacionError PinIncompleto)))
  /\ (forall pin sec_pat tiempos,
        len sec_pin = 4 ->
        repo_pins w !! id_area = Some pin ->
        Pin.estado pin <> BLOQUEADO ->
        sec_pin = Pin.secuencia_gestos pin ->
        capturar_secuencia sensor_patron 10 gesto = (sec_pat, tiempos) ->
        len sec_pat <> 10 ->
        autenticar_mfa self cedula id_area serial sensor_pin sensor_patron
                       actuador gesto w =
          ({| repo_rfid :=
                <[serial :=
                    {| Cred.cedula_propietario := Cred.cedula_propietario cred;
                       Cred.fecha_expiracion := Cred.fecha_expiracion cred;
                       Cred.estado := Cred.estado cred;
                       Cred.intentos_fallidos := 0;
                       Cred.intentos_exitosos :=
                         Cred.intentos_exitosos cred + 1;
                       Cred.ultimo_acceso :=
                         Some (reloj w (lecturas_reloj w)) |}]>
                  (repo_rfid w);
              repo_pins :=
                <[id_area := Pin.con_intentos_fallidos 0 pin]> (repo_pins w);
              repo_patrones := repo_patrones w;
              repo_accesos := repo_accesos w;
              traza :=
                traza w ++
                  [LlObtenerPorSerial serial;
                   LlCapturarSecuencia 4 gesto;
                   LlObtenerPorArea id_area;
                   LlCapturarSecuencia 10 gesto];
              reloj := reloj w;
              lecturas_reloj := S (lecturas_reloj w);
              uuids := uuids w;
              uuids_usados := uuids_usados w |},
           inl (AutenticacionError PatronIncompleto))).
Proof.
  intros Hcred Hown Hvig Hcap1. split.
  - intros Hlen1. unfold autenticar_mfa.
    rewrite (M_bind_inr datetime_now _ w _ _ eq_refl).
    erewrite M_bind_inr; [| by apply (validar_rfid_exito _ _ _ _ _ cred)].
    erewrite M_bind_inr; [| apply capturar_corre].
    rewrite Hcap1.
    assert ((len sec_pin =? 4) = false) as -> by (by apply Z.eqb_neq).
    desplegar. simpl. rewrite <- !app_assoc. reflexivity.
  - intros pin sec_pat tiempos Hlen1 Hpin Hact Hsec Hcap2 Hlen2.
    unfold autenticar_mfa.
    rewrite (M_bind_inr datetime_now _ w _ _ eq_refl).
    erewrite M_bind_inr; [| by apply (validar_rfid_exito _ _ _ _ _ cred)].
    erewrite M_bind_inr; [| apply capturar_corre].
    rewrite Hcap1.
    assert ((len sec_pin =? 4) = true) as -> by (by apply Z.eqb_eq).
    cbn [negb].
    erewrite M_bind_inr; [| by apply (validar_pin_exito _ _ _ _ pin)].
    erewrite M_bind_inr; [| apply capturar_corre].
    rewrite Hcap2.
    assert ((len sec_pat =? 10) = false) as -> by (by apply Z.eqb_neq).
    desplegar. simpl. rewrite <- !app_assoc. reflexivity.
Qed.

(** A PIN capture cut short at three gestures, and a pattern capture cut
    short at seven: the failed attempts on the PIN of the laboratory are
    still two in the first run, and no access is recorded in either. *)
Lemma autenticar_mfa_captura_incompleta_demo :
  (let r := autenticar_mfa servicio_por_defecto "101" "LAB" "RF-1"
              Demo.sensor_pin_corto Demo.sensor_patron_ok Demo.puerta
              (Some 0) Demo.mundo in
   r.2 = inl (AutenticacionError PinIncompleto)
   /\ repo_pins r.1 !! "LAB" = Some Demo.pin_lab
   /\ traza r.1 = [LlObtenerPorSerial "RF-1"; LlCapturarSecuencia 4 (Some 0)])
  /\ (let r := autenticar_mfa servicio_por_defecto "101" "LAB" "RF-1"
                 Demo.sensor_pin_ok Demo.sensor_patron_corto Demo.puerta
                 (Some 0) Demo.mundo in
      r.2 = inl (AutenticacionError PatronIncompleto)
      /\ repo_patrones r.1 = repo_patrones Demo.mundo
      /\ repo_accesos r.1 = []).
Proof.
  split.
  - destruct (autenticar_mfa_captura_incompleta servicio_por_defecto
                Demo.mundo "101" "LAB" "RF-1"
                Demo.sensor_pin_corto Demo.sensor_patron_ok Demo.puerta
                (Some 0) Demo.cred_ana [1; 2; 3] None
                eq_refl eq_refl eq_refl eq_refl) as [Hpin _].
    cbv zeta. rewrite Hpin by discriminate. repeat split.
  - destruct (autenticar_mfa_captura_incompleta servicio_por_defecto
                Demo.mundo "101" "LAB" "RF-1"
                Demo.sensor_pin_ok Demo.sensor_patron_corto Demo.puerta
                (Some 0) Demo.cred_ana [1; 2; 3; 4] None
                eq_refl eq_refl eq_refl eq_refl) as [_ Hpat].
    cbv zeta.
    rewrite (Hpat Demo.pin_lab [1; 2; 3; 4; 5; 1; 2] None)
      by (reflexivity || discriminate).
    repeat split.
Defined.

(** ** The model at work *)

(** The float literals are the doubles nearest to 0.9, 0.6 and 1.4. *)
Example literales_float :
  F.c0_9 = F.div (F.of_int 9) (F.of_int 10)
  /\ F.c0_6 = F.div (F.of_int 6) (F.of_int 10)
  /\ F.c1_4 = F.div (F.of_int 14) (F.of_int 10).
Proof. vm_compute. done. Qed.

(** Identical sequences give similarity 1, sequences that agree nowhere
    give 0, and a capture half as long as the reference, agreeing on all
    of its length, gives one half. *)
Example similitud_casos :
  similitud [1; 2; 3; 4] [1; 2; 3; 4] = F.of_int 1
  /\ similitud [1; 2; 3; 4] [5; 6; 7; 8] = F.of_int 0
  /\ similitud [1; 2; 3; 4] [1; 2] = F.div (F.of_int 1) (F.of_int 2).
Proof. vm_compute. done. Qed.

(** Eight gestures of ten fall below the default threshold. *)
Example ocho_de_diez_no_pasa :
  (validar_patron servicio_por_defecto "101"
     [1; 2; 3; 4; 5; 1; 2; 3; 9; 9] None Demo.mundo).2
  = inl (AutenticacionError
           (PatronNoCoincide (F.div (F.of_int 8) (F.of_int 10)) F.c0_9)).
Proof. vm_compute. reflexivity. Qed.

(** Around a reference delay of 10 the band is 6 to 14: a delay of 5 or
    of 15 is refused; and a zero reference delay accepts any delay. *)
Example banda_de_diez :
  dentro_de_tolerancia (Demo.f 10) (Demo.f 5) = false
  /\ dentro_de_tolerancia (Demo.f 10) (Demo.f 15) = false
  /\ par_aceptado (Demo.f 0, Demo.f 99) = true.
Proof. vm_compute. done. Qed.

(** Five wrong presentations of the tag of user 101, against a maximum of
    three: the count goes from 2 to 7 and the credential is still
    active. *)
Example rfid_sin_tope :
  repo_rfid
    (intentar_todos
       (intentos_rfid servicio_por_defecto
          [("RF-1", "202", Demo.ahora); ("RF-1", "202", Demo.ahora);
           ("RF-1", "303", Demo.ahora); ("RF-1", "202", Demo.ahora);
           ("RF-1", "303", Demo.ahora)]) Demo.mundo).1
  !! "RF-1"
  = Some (Cred.con_intentos_fallidos 7 Demo.cred_ana).
Proof. vm_compute. reflexivity. Qed.

(** A tag of somebody else stops the run before any capture is asked
    for. *)
Example rfid_ajena_corta :
  traza
    (autenticar_mfa servicio_por_defecto "101" "LAB" "RF-2"
       Demo.sensor_pin_ok Demo.sensor_patron_ok Demo.puerta (Some 0)
       Demo.mundo).1
  = [LlObtenerPorSerial "RF-2"].
Proof. vm_compute. reflexivity. Qed.

(** * Further properties *)

(** ** Every path of the validators *)

Lemma validar_pin_no_encontrado self w id_area sec :
  repo_pins w !! id_area = None ->
  validar_pin self id_area sec w =
    (con_traza (traza w ++ [LlObtenerPorArea id_area]) w, inl NoEncontrado).
Proof.
  intros Hk. unfold validar_pin. desplegar. simpl. by rewrite Hk.
Qed.

Lemma validar_patron_no_encontrado self w cedula sec tiempos :
  repo_patrones w !! cedula = None ->
  validar_patron self cedula sec tiempos w =
    (con_traza (traza w ++ [LlObtenerPorUsuario cedula]) w, inl NoEncontrado).
Proof.
  intros Hk. unfold validar_patron. desplegar. simpl. by rewrite Hk.
Qed.

Lemma validar_patron_vacia self w cedula tiempos patron :
  repo_patrones w !! cedula = Some patron ->
  validar_patron self cedula [] tiempos w =
    (con_traza (traza w ++ [LlObtenerPorUsuario cedula]) w,
     inl ValidacionError).
Proof.
  intros Hk. unfold validar_patron. desplegar. simpl. by rewrite Hk.
Qed.

(** A normal return of each validator tells what it found. *)
Lemma validar_rfid_inr self w serial cedula ahora w1 u :
  validar_rfid self serial cedula ahora w = (w1, inr u) ->
  exists cred,
    repo_rfid w !! serial = Some cred
    /\ Cred.cedula_propietario cred = cedula
    /\ Cred.esta_vigente cred (datetime_date ahora) = true.
Proof.
  destruct (repo_rfid w !! serial) as [cred |] eqn:Hk.
  - destruct (decide (Cred.cedula_propietario cred = cedula)) as [Hown | Hown].
    + destruct (Cred.esta_vigente cred (datetime_date ahora)) eqn:Hvig.
      * intros _. by exists cred.
      * by rewrite (validar_rfid_no_vigente _ _ _ _ _ cred).
    + by rewrite (validar_rfid_no_corresponde _ _ _ _ _ cred).
  - by rewrite validar_rfid_no_encontrado.
Qed.

Lemma validar_pin_inr self w id_area sec w1 u :
  validar_pin self id_area sec w = (w1, inr u) ->
  exists pin,
    repo_pins w !! id_area = Some pin
    /\ Pin.estado pin <> BLOQUEADO
    /\ sec = Pin.secuencia_gestos pin.
Proof.
  destruct (repo_pins w !! id_area) as [pin |] eqn:Hk.
  - destruct (decide (Pin.estado pin = BLOQUEADO)) as [Hb | Hb].
    + by rewrite (validar_pin_bloqueado _ _ _ _ pin).
    + destruct (decide (sec = Pin.secuencia_gestos pin)) as [Heq | Hne].
      * intros _. by exists pin.
      * by rewrite (validar_pin_incorrecto _ _ _ _ pin).
  - by rewrite validar_pin_no_encontrado.
Qed.

Lemma validar_patron_inr self w cedula sec tiempos w1 u :
  validar_patron self cedula sec tiempos w = (w1, inr u) ->
  exists patron,
    repo_patrones w !! cedula = Some patron
    /\ sec <> []
    /\ F.ltb (similitud (Patron.secuencia_gestos patron) sec)
             (umbral_similitud_patron self) = false
    /\ timings_aceptados (Patron.tiempos_entre_gestos patron) tiempos = true.
Proof.
  destruct (repo_patrones w !! cedula) as [patron |] eqn:Hk.
  - destruct sec as [| g sec].
    + by rewrite (validar_patron_vacia _ _ _ _ patron).
    + rewrite (validar_patron_corre _ _ _ _ _ patron) by done.
      destruct (F.ltb _ _) eqn:Hsim; [done |].
      destruct (timings_aceptados _ _) eqn:Htim; [| done].
      intros _. by exists patron.
  - by rewrite validar_patron_no_encontrado.
Qed.

(** What each validator leaves alone, whatever its outcome. *)
Lemma validar_rfid_marco self w serial cedula ahora :
  exists m r,
    validar_rfid self serial cedula ahora w =
      (con_repo_rfid m (con_traza (traza w ++ [LlObtenerPorSerial serial]) w),
       r)
    /\ (forall s, s <> serial -> m !! s = repo_rfid w !! s)
    /\ match repo_rfid w !! serial with
       | None => m !! serial = None /\ r = inl NoEncontrado
       | Some c =>
           exists c',
             m !! serial = Some c'
             /\ Cred.cedula_propietario c' = Cred.cedula_propietario c
             /\ Cred.fecha_expiracion c' = Cred.fecha_expiracion c
             /\ Cred.intentos_exitosos c <= Cred.intentos_exitosos c'
       end.
Proof.
  destruct (repo_rfid w !! serial) as [cred |] eqn:Hk.
  - assert (forall c' : Cred.t, forall s, s <> serial ->
              <[serial := c']> (repo_rfid w) !! s = repo_rfid w !! s) as Hotros
      by (intros c' s Hs; by rewrite lookup_insert_ne).
    destruct (decide (Cred.cedula_propietario cred = cedula)) as [Hown | Hown].
    + destruct (Cred.esta_vigente cred (datetime_date ahora)) eqn:Hvig.
      * eexists _, _. split; [by apply validar_rfid_exito |].
        split; [apply Hotros |]. eexists. rewrite lookup_insert_eq.
        split; [done |]. cbn. repeat split; try done; lia.
      * eexists _, _. split; [by apply validar_rfid_no_vigente |].
        split; [apply Hotros |]. eexists. rewrite lookup_insert_eq.
        split; [done |]. cbn. repeat split; try done; lia.
    + eexists _, _. split; [by apply validar_rfid_no_corresponde |].
      split; [apply Hotros |]. eexists. rewrite lookup_insert_eq.
      split; [done |]. cbn. repeat split; try done; lia.
  - exists (repo_rfid w), (inl NoEncontrado).
    rewrite validar_rfid_no_encontrado by done.
    split; [reflexivity | done].
Qed.

Lemma validar_pin_marco self w id_area sec :
  exists m r,
    validar_pin self id_area sec w =
      (con_repo_pins m (con_traza (traza w ++ [LlObtenerPorArea id_area]) w),
       r)
    /\ (forall a, a <> id_area -> m !! a = repo_pins w !! a)
    /\ match repo_pins w !! id_area with
       | None => m !! id_area = None /\ r = inl NoEncontrado
       | Some p =>
           exists p',
             m !! id_area = Some p'
             /\ Pin.id_area p' = Pin.id_area p
             /\ Pin.secuencia_gestos p' = Pin.secuencia_gestos p
       end.
Proof.
  destruct (repo_pins w !! id_area) as [pin |] eqn:Hk.
  - assert (forall p' : Pin.t, forall a, a <> id_area ->
              <[id_area := p']> (repo_pins w) !! a = repo_pins w !! a) as Hotros
      by (intros p' a Ha; by rewrite lookup_insert_ne).
    destruct (decide (Pin.estado pin = BLOQUEADO)) as [Hb | Hb].
    + exists (repo_pins w), (inl (AutenticacionError PinBloqueado)).
      rewrite (validar_pin_bloqueado _ _ _ _ pin) by done.
      split; [reflexivity |]. split; [done |]. by exists pin.
    + destruct (decide (sec = Pin.secuencia_gestos pin)) as [Heq | Hne].
      * eexists _, _. split; [by apply validar_pin_exito |].
        split; [apply Hotros |]. eexists. rewrite lookup_insert_eq. done.
      * eexists _, _. split; [by apply validar_pin_incorrecto |].
        split; [apply Hotros |]. eexists. rewrite lookup_insert_eq. done.
  - exists (repo_pins w), (inl NoEncontrado).
    rewrite validar_pin_no_encontrado by done.
    split; [reflexivity | done].
Qed.

Lemma validar_patron_marco self w cedula sec tiempos :
  (validar_patron self cedula sec tiempos w).1 =
    con_traza (traza w ++ [LlObtenerPorUsuario cedula]) w.
Proof.
  destruct (repo_patrones w !! cedula) as [patron |] eqn:Hk.
  - destruct sec as [| g sec].
    + by rewrite (validar_patron_vacia _ _ _ _ patron).
    + by rewrite (validar_patron_corre _ _ _ _ _ patron).
  - by rewrite validar_patron_no_encontrado.
Qed.

(** ** Every path of the orchestrator *)

(** The run of [autenticar_mfa], step by step, for given answers of the
    two sensors. *)
Lemma autenticar_mfa_pasos self w cedula id_area serial
    sensor_pin sensor_patron actuador gesto sec_pin t_pin sec_pat tiempos :
  capturar_secuencia sensor_pin 4 gesto = (sec_pin, t_pin) ->
  capturar_secuencia sensor_patron 10 gesto = (sec_pat, tiempos) ->
  autenticar_mfa self cedula id_area serial sensor_pin sensor_patron
                 actuador gesto w =
    match validar_rfid self serial cedula (reloj w (lecturas_reloj w))
            (con_lecturas_reloj (S (lecturas_reloj w)) w) with
    | (w1, inl e) => (w1, inl e)
    | (w1, inr _) =>
        if negb (len sec_pin =? 4) then
          (con_traza (traza w1 ++ [LlCapturarSecuencia 4 gesto]) w1,
           inl (AutenticacionError PinIncompleto))
        else
          match validar_pin self id_area sec_pin
                  (con_traza (traza w1 ++ [LlCapturarSecuencia 4 gesto]) w1)
          with
          | (w2, inl e) => (w2, inl e)
          | (w2, inr _) =>
              if negb (len sec_pat =? 10) then
                (con_traza (traza w2 ++ [LlCapturarSecuencia 10 gesto]) w2,
                 inl (AutenticacionError PatronIncompleto))
              else
                match validar_patron self cedula sec_pat tiempos
                        (con_traza
                           (traza w2 ++ [LlCapturarSecuencia 10 gesto]) w2)
                with
                | (w3, inl e) => (w3, inl e)
                | (w3, inr _) =>
                    (con_repo_accesos
                       (repo_accesos w3 ++
                          [{| Acceso.id_acceso := uuids w3 (uuids_usados w3);
                              Acceso.cedula_usuario := cedula;
                              Acceso.id_area := id_area;
                              Acceso.fecha_entrada :=
                                reloj w (lecturas_reloj w);
                              Acceso.registro_exitoso_id := "" |}])
                       (con_traza
                          (traza w3 ++
                             [LlIndicarExito actuador;
                              LlAbrirPuerta actuador;
                              LlAgregar
                                {| Acceso.id_acceso :=
                                     uuids w3 (uuids_usados w3);
                                   Acceso.cedula_usuario := cedula;
                                   Acceso.id_area := id_area;
                                   Acceso.fecha_entrada :=
                                     reloj w (lecturas_reloj w);
                                   Acceso.registro_exitoso_id := "" |}])
                          (con_uuids_usados (S (uuids_usados w3)) w3)),
                     inr {| Acceso.id_acceso := uuids w3 (uuids_usados w3);
                            Acceso.cedula_usuario := cedula;
                            Acceso.id_area := id_area;
                            Acceso.fecha_entrada := reloj w (lecturas_reloj w);
                            Acceso.registro_exitoso_id := "" |})
                end
          end
    end.
Proof.
  intros Hcap1 Hcap2. unfold autenticar_mfa.
  rewrite (M_bind_inr datetime_now _ w _ _ eq_refl).
  destruct (validar_rfid _ _ _ _ _) as [w1 [e | u]] eqn:Hrfid.
  { by erewrite M_bind_inl. }
  erewrite M_bind_inr; [| exact Hrfid].
  erewrite M_bind_inr; [| apply capturar_corre].
  rewrite Hcap1.
  destruct (negb (len sec_pin =? 4)); [done |].
  destruct (validar_pin _ _ _ _) as [w2 [e | u2]] eqn:Hpin.
  { by erewrite M_bind_inl. }
  erewrite M_bind_inr; [| exact Hpin].
  erewrite M_bind_inr; [| apply capturar_corre].
  rewrite Hcap2.
  destruct (negb (len sec_pat =? 10)); [done |].
  destruct (validar_patron _ _ _ _ _) as [w3 [e | u3]] eqn:Hpat.
  { by erewrite M_bind_inl. }
  erewrite M_bind_inr; [| exact Hpat].
  desplegar. simpl. rewrite <- !app_assoc. reflexivity.
Qed.

(** ** More on the RFID validator *)

(** X1. With a credential of the expected user that is in force,
    [validar_rfid] returns normally and leaves the credential with one
    more successful attempt, no failed attempts and the evaluation time
    as its last access; its state, owner and expiration date are as
    before. *)
Theorem validar_rfid_acepta self w serial cedula ahora cred :
  repo_rfid w !! serial = Some cred ->
  Cred.cedula_propietario cred = cedula ->
  Cred.esta_vigente cred (datetime_date ahora) = true ->
  validar_rfid self serial cedula ahora w =
    ({| repo_rfid :=
          <[serial :=
              {| Cred.cedula_propietario := Cred.cedula_propietario cred;
                 Cred.fecha_expiracion := Cred.fecha_expiracion cred;
                 Cred.estado := Cred.estado cred;
                 Cred.intentos_fallidos := 0;
                 Cred.intentos_exitosos := Cred.intentos_exitosos cred + 1;
                 Cred.ultimo_acceso := Some ahora |}]>
            (repo_rfid w);
        repo_pins := repo_pins w;
        repo_patrones := repo_patrones w;
        repo_accesos := repo_accesos w;
        traza := traza w ++ [LlObtenerPorSerial serial];
        reloj := reloj w;
        lecturas_reloj := lecturas_reloj w;
        uuids := uuids w;
        uuids_usados := uuids_usados w |},
     inr tt).
Proof.
  intros Hk Hown Hvig. by rewrite (validar_rfid_exito _ _ _ _ _ cred).
Qed.

(** The two failed attempts on the tag of user 101 are cleared. *)
Lemma validar_rfid_acepta_demo :
  repo_rfid
    (validar_rfid servicio_por_defecto "RF-1" "101" Demo.ahora Demo.mundo).1
  !! "RF-1"
  = Some {| Cred.cedula_propietario := "101";
            Cred.fecha_expiracion := Demo.dia + 30;
            Cred.estado := ACTIVA;
            Cred.intentos_fallidos := 0;
            Cred.intentos_exitosos := 7 + 1;
            Cred.ultimo_acceso := Some Demo.ahora |}.
Proof.
  rewrite (validar_rfid_acepta servicio_por_defecto Demo.mundo "RF-1" "101"
             Demo.ahora Demo.cred_ana eq_refl eq_refl eq_refl).
  cbn [fst repo_rfid]. apply lookup_insert_eq.
Defined.

(** X2. [validar_rfid] returns normally exactly when the serial is that
    of a stored credential which belongs to the expected user and is in
    force at the evaluation date. *)
Theorem validar_rfid_acepta_sii self w serial cedula ahora :
  (validar_rfid self serial cedula ahora w).2 = inr tt <->
  exists cred,
    repo_rfid w !! serial = Some cred
    /\ Cred.cedula_propietario cred = cedula
    /\ Cred.esta_vigente cred (datetime_date ahora) = true.
Proof.
  split.
  - destruct (validar_rfid self serial cedula ahora w) as [w1 r] eqn:Hrun.
    cbn [snd]. intros ->. by eapply validar_rfid_inr.
  - intros (cred & Hk & Hown & Hvig).
    by rewrite (validar_rfid_exito _ _ _ _ _ cred).
Qed.

(** X3. Whatever its outcome, [validar_rfid] makes one lookup and touches
    nothing but the credential stored under the serial it was given: the
    other credentials, the PINs, the patterns, the access records, the
    clock and the identifier source are as before; the credential keeps
    its owner and its expiration date, and its count of successful
    attempts does not go down; and when no credential is stored under
    the serial the call fails with the not-found error. *)
Theorem validar_rfid_solo_su_credencial self w serial cedula ahora :
  repo_pins (validar_rfid self serial cedula ahora w).1 = repo_pins w
  /\ repo_patrones (validar_rfid self serial cedula ahora w).1
     = repo_patrones w
  /\ repo_accesos (validar_rfid self serial cedula ahora w).1
     = repo_accesos w
  /\ lecturas_reloj (validar_rfid self serial cedula ahora w).1
     = lecturas_reloj w
  /\ uuids_usados (validar_rfid self serial cedula ahora w).1
     = uuids_usados w
  /\ traza (validar_rfid self serial cedula ahora w).1
     = traza w ++ [LlObtenerPorSerial serial]
  /\ (forall s, s <> serial ->
        repo_rfid (validar_rfid self serial cedula ahora w).1 !! s
        = repo_rfid w !! s)
  /\ match repo_rfid w !! serial with
     | None =>
         repo_rfid (validar_rfid self serial cedula ahora w).1 !! serial
         = None
         /\ (validar_rfid self serial cedula ahora w).2 = inl NoEncontrado
     | Some c =>
         exists c',
           repo_rfid (validar_rfid self serial cedula ahora w).1 !! serial
           = Some c'
           /\ Cred.cedula_propietario c' = Cred.cedula_propietario c
           /\ Cred.fecha_expiracion c' = Cred.fecha_expiracion c
           /\ Cred.intentos_exitosos c <= Cred.intentos_exitosos c'
     end.
Proof.
  destruct (validar_rfid_marco self w serial cedula ahora)
    as (m & r & -> & Hotros & Hsuya).
  cbn [fst snd repo_rfid repo_pins repo_patrones repo_accesos
       lecturas_reloj uuids_usados traza con_repo_rfid con_traza].
  repeat (split; [done |]). exact Hsuya.
Qed.

(** ** More on the PIN validator *)

(** X4. With a PIN that is not blocked and a captured sequence equal to
    its reference, [validar_pin] returns normally and clears the count of
    failed attempts, whatever it was; nothing else changes. *)
Theorem validar_pin_acepta self w id_area sec pin :
  repo_pins w !! id_area = Some pin ->
  Pin.estado pin <> BLOQUEADO ->
  sec = Pin.secuencia_gestos pin ->
  validar_pin self id_area sec w =
    ({| repo_rfid := repo_rfid w;
        repo_pins :=
          <[id_area :=
              {| Pin.id_area := Pin.id_area pin;
                 Pin.secuencia_gestos := Pin.secuencia_gestos pin;
                 Pin.estado := Pin.estado pin;
                 Pin.intentos_fallidos := 0 |}]>
            (repo_pins w);
        repo_patrones := repo_patrones w;
        repo_accesos := repo_accesos w;
        traza := traza w ++ [LlObtenerPorArea id_area];
        reloj := reloj w;
        lecturas_reloj := lecturas_reloj w;
        uuids := uuids w;
        uuids_usados := uuids_usados w |},
     inr tt).
Proof.
  intros Hk Hb Heq. by rewrite (validar_pin_exito _ _ _ _ pin).
Qed.

(** The right PIN at the laboratory clears its two failed attempts. *)
Lemma validar_pin_acepta_demo :
  repo_pins
    (validar_pin servicio_por_defecto "LAB" [1; 2; 3; 4] Demo.mundo).1
  !! "LAB"
  = Some {| Pin.id_area := "LAB";
            Pin.secuencia_gestos := [1; 2; 3; 4];
            Pin.estado := ACTIVO;
            Pin.intentos_fallidos := 0 |}.
Proof.
  rewrite (validar_pin_acepta servicio_por_defecto Demo.mundo "LAB"
             [1; 2; 3; 4] Demo.pin_lab eq_refl);
    [| discriminate | reflexivity].
  cbn [fst repo_pins]. apply lookup_insert_eq.
Defined.

(** X5. [validar_pin] returns normally exactly when a PIN is stored for
    the area, it is not blocked, and the captured sequence equals its
    reference sequence, length and every gesture. *)
Theorem validar_pin_acepta_sii self w id_area sec :
  (validar_pin self id_area sec w).2 = inr tt <->
  exists pin,
    repo_pins w !! id_area = Some pin
    /\ Pin.estado pin <> BLOQUEADO
    /\ sec = Pin.secuencia_gestos pin.
Proof.
  split.
  - destruct (validar_pin self id_area sec w) as [w1 r] eqn:Hrun.
    cbn [snd]. intros ->. by eapply validar_pin_inr.
  - intros (pin & Hk & Hb & Heq).
    by rewrite (validar_pin_exito _ _ _ _ pin).
Qed.

(** X6. Whatever its outcome, [validar_pin] makes one lookup and touches
    nothing but the PIN stored for the area it was given: the other
    PINs, the credentials, the patterns, the access records, the clock
    and the identifier source are as before, and the PIN keeps its area
    and its reference sequence; when no PIN is stored for the area the
    call fails with the not-found error. *)
Theorem validar_pin_solo_su_pin self w id_area sec :
  repo_rfid (validar_pin self id_area sec w).1 = repo_rfid w
  /\ repo_patrones (validar_pin self id_area sec w).1 = repo_patrones w
  /\ repo_accesos (validar_pin self id_area sec w).1 = repo_accesos w
  /\ lecturas_reloj (validar_pin self id_area sec w).1 = lecturas_reloj w
  /\ uuids_usados (validar_pin self id_area sec w).1 = uuids_usados w
  /\ traza (validar_pin self id_area sec w).1
     = traza w ++ [LlObtenerPorArea id_area]
  /\ (forall a, a <> id_area ->
        repo_pins (validar_pin self id_area sec w).1 !! a = repo_pins w !! a)
  /\ match repo_pins w !! id_area with
     | None =>
         repo_pins (validar_pin self id_area sec w).1 !! id_area = None
         /\ (validar_pin self id_area sec w).2 = inl NoEncontrado
     | Some p =>
         exists p',
           repo_pins (validar_pin self id_area sec w).1 !! id_area = Some p'
           /\ Pin.id_area p' = Pin.id_area p
           /\ Pin.secuencia_gestos p' = Pin.secuencia_gestos p
     end.
Proof.
  destruct (validar_pin_marco self w id_area sec)
    as (m & r & -> & Hotros & Hsuyo).
  cbn [fst snd repo_rfid repo_pins repo_patrones repo_accesos
       lecturas_reloj uuids_usados traza con_repo_pins con_traza].
  repeat (split; [done |]). exact Hsuyo.
Qed.

(** ** Runs of PIN attempts *)

Lemma intentar_todos_app {A} (ms1 ms2 : list (M A)) : forall w,
  intentar_todos (ms1 ++ ms2) w =
    ((intentar_todos ms2 (intentar_todos ms1 w).1).1,
     (intentar_todos ms1 w).2 ++ (intentar_todos ms2 (intentar_todos ms1 w).1).2).
Proof.
  induction ms1 as [| m ms1 IH]; intros w.
  - cbn. by destruct (intentar_todos ms2 w).
  - cbn [app intentar_todos]. destruct (m w) as [w1 r]. rewrite IH.
    destruct (intentar_todos ms1 w1) as [w2 rs].
    by destruct (intentar_todos ms2 w2).
Qed.

Lemma len_cons {A} (x : A) (l : list A) : len (x :: l) = 1 + len l.
Proof. unfold len. cbn [length]. lia. Qed.

Lemma len_no_negativa {A} (l : list A) : 0 <= len l.
Proof. unfold len. lia. Qed.

Lemma intentos_pin_incorrectos self id_area secs : forall w pin,
  repo_pins w !! id_area = Some pin ->
  Pin.estado pin = ACTIVO ->
  Forall (fun sec => sec <> Pin.secuencia_gestos pin) secs ->
  Pin.intentos_fallidos pin + len secs < max_intentos_pin self ->
  repo_pins (intentar_todos (intentos_pin self id_area secs) w).1 !! id_area
    = Some {| Pin.id_area := Pin.id_area pin;
              Pin.secuencia_gestos := Pin.secuencia_gestos pin;
              Pin.estado := ACTIVO;
              Pin.intentos_fallidos := Pin.intentos_fallidos pin + len secs |}
  /\ (intentar_todos (intentos_pin self id_area secs) w).2
    = map (fun _ => inl (AutenticacionError PinIncorrecto)) secs.
Proof.
  induction secs as [| sec resto IH]; intros w pin Hk Hact Hmal Hcota.
  - cbn. split; [| done]. rewrite Hk. f_equal.
    destruct pin; cbn in *. subst. f_equal. unfold len. cbn. lia.
  - apply Forall_cons in Hmal as [Hsec Hresto]. rewrite len_cons in Hcota.
    pose proof (len_no_negativa resto) as Hpos.
    cbn [intentos_pin map intentar_todos].
    fold (intentos_pin self id_area resto).
    rewrite (validar_pin_incorrecto _ _ _ _ pin) by (done || congruence).
    assert ((max_intentos_pin self <=? Pin.intentos_fallidos pin + 1) = false)
      as -> by (apply Z.leb_gt; lia).
    match goal with
    | |- context [intentar_todos _ ?w1] =>
        destruct (IH w1
                    {| Pin.id_area := Pin.id_area pin;
                       Pin.secuencia_gestos := Pin.secuencia_gestos pin;
                       Pin.estado := Pin.estado pin;
                       Pin.intentos_fallidos := Pin.intentos_fallidos pin + 1 |})
          as [Hfin Hres]
    end.
    + cbn [repo_pins con_repo_pins]. apply lookup_insert_eq.
    + done.
    + done.
    + cbn [Pin.intentos_fallidos]. lia.
    + destruct (intentar_todos _ _) as [w2 rs]. cbn [fst snd] in *.
      rewrite Hfin, Hres. cbn [Pin.id_area Pin.secuencia_gestos
                                 Pin.intentos_fallidos map].
      split; [| done]. do 2 f_equal. rewrite len_cons. lia.
Qed.

Lemma intentos_pin_hasta_bloqueo self id_area secs : forall w pin,
  repo_pins w !! id_area = Some pin ->
  Pin.estado pin = ACTIVO ->
  Forall (fun sec => sec <> Pin.secuencia_gestos pin) secs ->
  secs <> [] ->
  Pin.intentos_fallidos pin + len secs = max_intentos_pin self ->
  repo_pins (intentar_todos (intentos_pin self id_area secs) w).1 !! id_area
    = Some {| Pin.id_area := Pin.id_area pin;
              Pin.secuencia_gestos := Pin.secuencia_gestos pin;
              Pin.estado := BLOQUEADO;
              Pin.intentos_fallidos := max_intentos_pin self |}
  /\ (intentar_todos (intentos_pin self id_area secs) w).2
    = map (fun _ => inl (AutenticacionError PinIncorrecto)) secs.
Proof.
  induction secs as [| sec resto IH]; intros w pin Hk Hact Hmal Hno Hcota;
    [done |].
  apply Forall_cons in Hmal as [Hsec Hresto]. rewrite len_cons in Hcota.
  pose proof (len_no_negativa resto) as Hpos.
  cbn [intentos_pin map intentar_todos].
  fold (intentos_pin self id_area resto).
  rewrite (validar_pin_incorrecto _ _ _ _ pin) by (done || congruence).
  destruct resto as [| sec2 resto].
  - assert ((max_intentos_pin self <=? Pin.intentos_fallidos pin + 1) = true)
      as -> by (apply Z.leb_le; unfold len in Hcota; cbn in Hcota; lia).
    cbn [intentos_pin map intentar_todos fst snd repo_pins con_repo_pins].
    rewrite lookup_insert_eq. split; [| done]. do 2 f_equal.
    unfold len in Hcota. cbn in Hcota. lia.
  - assert ((max_intentos_pin self <=? Pin.intentos_fallidos pin + 1) = false)
      as ->.
    { apply Z.leb_gt. rewrite len_cons in Hcota.
      pose proof (len_no_negativa resto). lia. }
    match goal with
    | |- context [intentar_todos _ ?w1] =>
        destruct (IH w1
                    {| Pin.id_area := Pin.id_area pin;
                       Pin.secuencia_gestos := Pin.secuencia_gestos pin;
                       Pin.estado := Pin.estado pin;
                       Pin.intentos_fallidos := Pin.intentos_fallidos pin + 1 |})
          as [Hfin Hres]
    end.
    + cbn [repo_pins con_repo_pins]. apply lookup_insert_eq.
    + done.
    + done.
    + done.
    + cbn [Pin.intentos_fallidos]. lia.
    + destruct (intentar_todos _ _) as [w2 rs]. cbn [fst snd] in *.
      rewrite Hfin, Hres. done.
Qed.

(** X7. Wrong PINs below the limit: from an active PIN with [k] failed
    attempts, a run of [n] attempts with sequences other than the
    reference, with [k + n] still under [max_intentos_pin], is refused
    attempt by attempt as a wrong PIN and leaves the PIN active with
    [k + n] failed attempts. *)
Theorem validar_pin_bajo_el_tope self w id_area pin secs :
  repo_pins w !! id_area = Some pin ->
  Pin.estado pin = ACTIVO ->
  Forall (fun sec => sec <> Pin.secuencia_gestos pin) secs ->
  Pin.intentos_fallidos pin + len secs < max_intentos_pin self ->
  repo_pins (intentar_todos (intentos_pin self id_area secs) w).1 !! id_area
    = Some {| Pin.id_area := Pin.id_area pin;
              Pin.secuencia_gestos := Pin.secuencia_gestos pin;
              Pin.estado := ACTIVO;
              Pin.intentos_fallidos := Pin.intentos_fallidos pin + len secs |}
  /\ (intentar_todos (intentos_pin self id_area secs) w).2
    = map (fun _ => inl (AutenticacionError PinIncorrecto)) secs.
Proof. intros. by apply intentos_pin_incorrectos. Qed.

(** With a limit of five, two more wrong PINs at the laboratory bring
    its count from two to four and leave it active. *)
Lemma validar_pin_bajo_el_tope_demo :
  repo_pins
    (intentar_todos
       (intentos_pin
          {| max_intentos_rfid := 3; max_intentos_pin := 5;
             umbral_similitud_patron := F.c0_9 |}
          "LAB" [[1; 2; 3; 5]; [4; 3; 2; 1]]) Demo.mundo).1
  !! "LAB"
  = Some {| Pin.id_area := "LAB";
            Pin.secuencia_gestos := [1; 2; 3; 4];
            Pin.estado := ACTIVO;
            Pin.intentos_fallidos := 2 + len [[1; 2; 3; 5]; [4; 3; 2; 1]] |}.
Proof.
  apply (validar_pin_bajo_el_tope
           {| max_intentos_rfid := 3; max_intentos_pin := 5;
              umbral_similitud_patron := F.c0_9 |}
           Demo.mundo "LAB" Demo.pin_lab [[1; 2; 3; 5]; [4; 3; 2; 1]]).
  - reflexivity.
  - reflexivity.
  - repeat (constructor; [discriminate |]). constructor.
  - reflexivity.
Defined.

(** X8. Lockout: from an active PIN with [k] failed attempts, a run of
    wrong sequences that brings the count to [max_intentos_pin] is
    refused attempt by attempt as a wrong PIN and leaves the PIN blocked
    with the count at the maximum; every attempt after that, the
    reference sequence included, is refused as blocked and changes
    nothing. *)
Theorem validar_pin_tope_y_despues self w id_area pin secs mas :
  repo_pins w !! id_area = Some pin ->
  Pin.estado pin = ACTIVO ->
  Forall (fun sec => sec <> Pin.secuencia_gestos pin) secs ->
  secs <> [] ->
  Pin.intentos_fallidos pin + len secs = max_intentos_pin self ->
  repo_pins
    (intentar_todos (intentos_pin self id_area (secs ++ mas)) w).1
  !! id_area
    = Some {| Pin.id_area := Pin.id_area pin;
              Pin.secuencia_gestos := Pin.secuencia_gestos pin;
              Pin.estado := BLOQUEADO;
              Pin.intentos_fallidos := max_intentos_pin self |}
  /\ (intentar_todos (intentos_pin self id_area (secs ++ mas)) w).2
    = map (fun _ => inl (AutenticacionError PinIncorrecto)) secs
      ++ map (fun _ => inl (AutenticacionError PinBloqueado)) mas.
Proof.
  intros Hk Hact Hmal Hno Hcota.
  destruct (intentos_pin_hasta_bloqueo self id_area secs w pin
              Hk Hact Hmal Hno Hcota) as [Hfin Hres].
  unfold intentos_pin. rewrite map_app.
  fold (intentos_pin self id_area secs). fold (intentos_pin self id_area mas).
  rewrite intentar_todos_app. cbn [fst snd]. rewrite Hres.
  destruct (intentos_pin_bloqueado self id_area _ mas _ Hfin eq_refl)
    as [Hrepo Hmas].
  by rewrite Hrepo, Hfin, Hmas.
Qed.

(** The third wrong PIN at the laboratory blocks it, and the right PIN
    is refused afterwards. *)
Lemma validar_pin_tope_y_despues_demo :
  (intentar_todos
     (intentos_pin servicio_por_defecto "LAB"
        ([[9; 9; 9; 9]] ++ [[1; 2; 3; 4]])) Demo.mundo).2
  = map (fun _ => inl (AutenticacionError PinIncorrecto)) [[9; 9; 9; 9]]
    ++ map (fun _ => inl (AutenticacionError PinBloqueado)) [[1; 2; 3; 4]].
Proof.
  apply (validar_pin_tope_y_despues servicio_por_defecto Demo.mundo "LAB"
           Demo.pin_lab [[9; 9; 9; 9]] [[1; 2; 3; 4]]).
  - reflexivity.
  - reflexivity.
  - repeat (constructor; [discriminate |]). constructor.
  - discriminate.
  - reflexivity.
Defined.

(** ** More on the pattern matcher *)

(** X9. An empty capture is refused as malformed input: for a stored
    pattern, [validar_patron] on the empty sequence raises the validation
    error, before any similarity or timing is looked at and whatever the
    threshold and the timing sequences are. *)
Theorem validar_patron_captura_vacia self w cedula tiempos patron :
  repo_patrones w !! cedula = Some patron ->
  validar_patron self cedula [] tiempos w =
    ({| repo_rfid := repo_rfid w;
        repo_pins := repo_pins w;
        repo_patrones := repo_patrones w;
        repo_accesos := repo_accesos w;
        traza := traza w ++ [LlObtenerPorUsuario cedula];
        reloj := reloj w;
        lecturas_reloj := lecturas_reloj w;
        uuids := uuids w;
        uuids_usados := uuids_usados w |},
     inl ValidacionError).
Proof. intros Hk. by rewrite (validar_patron_vacia _ _ _ _ patron). Qed.

Lemma validar_patron_captura_vacia_demo :
  (validar_patron servicio_por_defecto "101" [] (Some Demo.tiempos_borde)
     Demo.mundo).2
  = inl ValidacionError.
Proof.
  by rewrite (validar_patron_captura_vacia servicio_por_defecto Demo.mundo
                "101" (Some Demo.tiempos_borde) Demo.patron_ana eq_refl).
Defined.

(** X10. [validar_patron] is read-only: whatever its arguments and its
    outcome, the world after the call is the world before it with one
    more entry in the log of calls, the lookup of the pattern. *)
Theorem validar_patron_no_muta self w cedula sec tiempos :
  (validar_patron self cedula sec tiempos w).1 =
    {| repo_rfid := repo_rfid w;
       repo_pins := repo_pins w;
       repo_patrones := repo_patrones w;
       repo_accesos := repo_accesos w;
       traza := traza w ++ [LlObtenerPorUsuario cedula];
       reloj := reloj w;
       lecturas_reloj := lecturas_reloj w;
       uuids := uuids w;
       uuids_usados := uuids_usados w |}.
Proof. by rewrite validar_patron_marco. Qed.

(** X11. [validar_patron] returns normally exactly when a pattern is
    stored for the user, the capture is not empty, the similarity is not
    below the threshold, and the timing check lets the capture through. *)
Theorem validar_patron_acepta_sii self w cedula sec tiempos :
  (validar_patron self cedula sec tiempos w).2 = inr tt <->
  exists patron,
    repo_patrones w !! cedula = Some patron
    /\ sec <> []
    /\ F.ltb (similitud (Patron.secuencia_gestos patron) sec)
             (umbral_similitud_patron self) = false
    /\ timings_aceptados (Patron.tiempos_entre_gestos patron) tiempos = true.
Proof.
  split.
  - destruct (validar_patron self cedula sec tiempos w) as [w1 r] eqn:Hrun.
    cbn [snd]. intros ->. by eapply validar_patron_inr.
  - intros (patron & Hk & Hsec & Hsim & Htim).
    by rewrite (validar_patron_exito _ _ _ _ _ patron).
Qed.

Lemma coincidencias_sim ref : forall cap,
  coincidencias ref cap = coincidencias cap ref.
Proof.
  unfold coincidencias, len.
  induction ref as [| a ref IH]; intros [| b cap]; try done.
  cbn [zip zip_with List.filter fst snd]. rewrite (Z.eqb_sym b a).
  specialize (IH cap). destruct (a =? b); cbn [length]; lia.
Qed.

Lemma coincidencias_cota ref : forall cap,
  0 <= coincidencias ref cap <= Z.min (len ref) (len cap).
Proof.
  unfold coincidencias, len.
  induction ref as [| a ref IH]; intros [| b cap]; cbn [zip zip_with
    List.filter fst snd length]; try lia.
  specialize (IH cap). destruct (a =? b); cbn [length]; lia.
Qed.

Lemma coincidencias_misma l : coincidencias l l = len l.
Proof.
  unfold coincidencias, len. induction l as [| a l IH]; [done |].
  cbn [zip zip_with List.filter fst snd]. rewrite Z.eqb_refl.
  cbn [length]. lia.
Qed.

(** X12. The similarity does not depend on which of the two sequences is
    the reference and which the capture. *)
Theorem similitud_simetrica ref cap : similitud ref cap = similitud cap ref.
Proof.
  unfold similitud. rewrite !contar_coincidencias_spec.
  by rewrite (coincidencias_sim ref cap), Z.max_comm.
Qed.

(** X13. The counting loop: the number of matches lies between zero and
    the shorter of the two lengths; a sequence matches itself at every
    position; and when the two lengths differ the number of matches is
    strictly below the divisor [max(len(ref), len(cap))], so the
    quotient cannot be a full match. *)
Theorem contar_coincidencias_cotas ref cap :
  0 <= contar_coincidencias ref cap <= Z.min (len ref) (len cap)
  /\ contar_coincidencias ref ref = len ref
  /\ (len ref <> len cap ->
      contar_coincidencias ref cap < Z.max (len ref) (len cap)).
Proof.
  rewrite !contar_coincidencias_spec.
  pose proof (coincidencias_cota ref cap) as Hcota.
  split; [done |]. split; [apply coincidencias_misma |]. lia.
Qed.

Lemma umbral_de_diez m :
  0 <= m <= 10 ->
  F.ltb (F.div (F.of_int m) (F.of_int 10)) F.c0_9 = true <-> m <= 8.
Proof.
  intros Hm.
  assert (m = 0 \/ m = 1 \/ m = 2 \/ m = 3 \/ m = 4 \/ m = 5 \/ m = 6
          \/ m = 7 \/ m = 8 \/ m = 9 \/ m = 10) as Hcasos by lia.
  repeat (destruct Hcasos as [-> | Hcasos]); try subst m;
    (split; intros H;
     first [lia | (vm_compute; reflexivity) | (vm_compute in H; discriminate)]).
Qed.

(** X14. Ten gestures against ten, under the default threshold 0.9:
    [validar_patron] raises the pattern-mismatch error exactly when at
    most eight of the ten positions agree; nine or ten matches pass the
    similarity check. *)
Theorem validar_patron_nueve_de_diez self w cedula sec tiempos patron :
  repo_patrones w !! cedula = Some patron ->
  umbral_similitud_patron self = F.c0_9 ->
  len (Patron.secuencia_gestos patron) = 10 ->
  len sec = 10 ->
  (validar_patron self cedula sec tiempos w).2 =
    inl (AutenticacionError
           (PatronNoCoincide
              (similitud (Patron.secuencia_gestos patron) sec) F.c0_9))
  <-> contar_coincidencias (Patron.secuencia_gestos patron) sec <= 8.
Proof.
  intros Hk Humbral Href Hsec.
  assert (sec <> []) as Hno by (intros ->; discriminate Hsec).
  rewrite (validar_patron_corre _ _ _ _ _ patron Hk Hno). cbn [snd].
  rewrite Humbral.
  assert (F.ltb (similitud (Patron.secuencia_gestos patron) sec) F.c0_9 = true
          <-> contar_coincidencias (Patron.secuencia_gestos patron) sec <= 8)
    as Hsii.
  { unfold similitud. rewrite Href, Hsec. change (Z.max 10 10) with 10.
    apply umbral_de_diez.
    pose proof (coincidencias_cota (Patron.secuencia_gestos patron) sec).
    rewrite contar_coincidencias_spec. lia. }
  rewrite <- Hsii. destruct (F.ltb _ _); [done |].
  split; [| done]. by destruct (timings_aceptados _ _).
Qed.

(** Eight matches against the pattern of user 101: mismatch. *)
Lemma validar_patron_nueve_de_diez_demo :
  (validar_patron servicio_por_defecto "101"
     [1; 2; 3; 4; 5; 1; 2; 3; 9; 9] None Demo.mundo).2
  = inl (AutenticacionError
           (PatronNoCoincide
              (similitud (Patron.secuencia_gestos Demo.patron_ana)
                 [1; 2; 3; 4; 5; 1; 2; 3; 9; 9]) F.c0_9)).
Proof.
  apply (validar_patron_nueve_de_diez servicio_por_defecto Demo.mundo "101"
           [1; 2; 3; 4; 5; 1; 2; 3; 9; 9] None Demo.patron_ana
           eq_refl eq_refl eq_refl eq_refl).
  vm_compute. discriminate.
Defined.

Lemma par_aceptado_nan ref got :
  F.es_nan ref = true
  \/ (F.es_nan got = true /\ F.eqb ref (F.of_int 0) = false) ->
  par_aceptado (ref, got) = false.
Proof.
  unfold par_aceptado, dentro_de_tolerancia. cbn [fst snd].
  intros [Href | [Hgot Hnz]].
  - destruct ref; try discriminate. reflexivity.
  - rewrite Hnz. destruct got; try discriminate. cbn [orb].
    apply andb_false_iff. left. unfold F.leb, SFleb.
    by destruct (F.mul F.c0_6 ref).
Qed.

(** X15. A delay that is not a number is never inside a band: the timing
    loop raises the timing error as soon as the list holds a pair whose
    reference delay is NaN, or whose captured delay is NaN while the
    reference delay is not zero. *)
Theorem verificar_timings_nan pares ref got w :
  In (ref, got) pares ->
  F.es_nan ref = true
  \/ (F.es_nan got = true /\ F.eqb ref (F.of_int 0) = false) ->
  verificar_timings pares w = (w, inl (AutenticacionError PatronTimings)).
Proof.
  intros Hin Hnan. rewrite verificar_timings_corre.
  destruct (forallb par_aceptado pares) eqn:Htodos; [| done].
  rewrite forallb_forall in Htodos. specialize (Htodos _ Hin).
  by rewrite (par_aceptado_nan ref got Hnan) in Htodos.
Qed.

Lemma verificar_timings_nan_demo :
  verificar_timings [(Demo.f 10, Demo.f 10); (Demo.f 10, S754_nan)] Demo.mundo
  = (Demo.mundo, inl (AutenticacionError PatronTimings)).
Proof.
  apply (verificar_timings_nan _ (Demo.f 10) S754_nan).
  - right. by left.
  - right. split; vm_compute; reflexivity.
Defined.

(** ** More on the orchestrator *)

Lemma validar_rfid_no_validacion self w serial cedula ahora :
  (validar_rfid self serial cedula ahora w).2 <> inl ValidacionError.
Proof.
  destruct (repo_rfid w !! serial) as [cred |] eqn:Hk.
  - destruct (decide (Cred.cedula_propietario cred = cedula)) as [Hown | Hown].
    + destruct (Cred.esta_vigente cred (datetime_date ahora)) eqn:Hvig.
      * by rewrite (validar_rfid_exito _ _ _ _ _ cred).
      * by rewrite (validar_rfid_no_vigente _ _ _ _ _ cred).
    + by rewrite (validar_rfid_no_corresponde _ _ _ _ _ cred).
  - by rewrite validar_rfid_no_encontrado.
Qed.

Lemma validar_pin_no_validacion self w id_area sec :
  (validar_pin self id_area sec w).2 <> inl ValidacionError.
Proof.
  destruct (repo_pins w !! id_area) as [pin |] eqn:Hk.
  - destruct (decide (Pin.estado pin = BLOQUEADO)) as [Hb | Hb].
    + by rewrite (validar_pin_bloqueado _ _ _ _ pin).
    + destruct (decide (sec = Pin.secuencia_gestos pin)) as [Heq | Hne].
      * by rewrite (validar_pin_exito _ _ _ _ pin).
      * by rewrite (validar_pin_incorrecto _ _ _ _ pin).
  - by rewrite validar_pin_no_encontrado.
Qed.

Lemma validar_patron_no_validacion self w cedula sec tiempos :
  sec <> [] ->
  (validar_patron self cedula sec tiempos w).2 <> inl ValidacionError.
Proof.
  intros Hsec. destruct (repo_patrones w !! cedula) as [patron |] eqn:Hk.
  - rewrite (validar_patron_corre _ _ _ _ _ patron) by done. cbn [snd].
    destruct (F.ltb _ _); [done |]. by destruct (timings_aceptados _ _).
  - by rewrite validar_patron_no_encontrado.
Qed.

(** The shape of the world after any run of [autenticar_mfa]. *)
Lemma autenticar_mfa_forma self w cedula id_area serial
    sensor_pin sensor_patron actuador gesto :
  exists m_rfid m_pins extra r,
    autenticar_mfa self cedula id_area serial sensor_pin sensor_patron
                   actuador gesto w =
      ({| repo_rfid := m_rfid;
          repo_pins := m_pins;
          repo_patrones := repo_patrones w;
          repo_accesos :=
            match r with
            | inr a => repo_accesos w ++ [a]
            | inl _ => repo_accesos w
            end;
          traza := traza w ++ extra;
          reloj := reloj w;
          lecturas_reloj := S (lecturas_reloj w);
          uuids := uuids w;
          uuids_usados :=
            match r with
            | inr _ => S (uuids_usados w)
            | inl _ => uuids_usados w
            end |}, r)
    /\ (forall s, s <> serial -> m_rfid !! s = repo_rfid w !! s)
    /\ (forall a, a <> id_area -> m_pins !! a = repo_pins w !! a)
    /\ r <> inl ValidacionError
    /\ match r with
       | inl _ => Forall (fun ll => es_concesion ll = false) extra
       | inr a =>
           a = {| Acceso.id_acceso := uuids w (uuids_usados w);
                  Acceso.cedula_usuario := cedula;
                  Acceso.id_area := id_area;
                  Acceso.fecha_entrada := reloj w (lecturas_reloj w);
                  Acceso.registro_exitoso_id := "" |}
           /\ exists pre,
                extra = pre ++ [LlIndicarExito actuador;
                                LlAbrirPuerta actuador; LlAgregar a]
                /\ Forall (fun ll => es_concesion ll = false) pre
       end.
Proof.
  destruct (capturar_secuencia sensor_pin 4 gesto) as [sec_pin t_pin] eqn:Hc1.
  destruct (capturar_secuencia sensor_patron 10 gesto)
    as [sec_pat tiempos] eqn:Hc2.
  rewrite (autenticar_mfa_pasos _ _ _ _ _ _ _ _ _ _ _ _ _ Hc1 Hc2).
  destruct (validar_rfid_marco self
              (con_lecturas_reloj (S (lecturas_reloj w)) w) serial cedula
              (reloj w (lecturas_reloj w)))
    as (m & r1 & Hrun1 & Hotros1 & _).
  pose proof (validar_rfid_no_validacion self
                (con_lecturas_reloj (S (lecturas_reloj w)) w) serial cedula
                (reloj w (lecturas_reloj w))) as Hnv1.
  rewrite Hrun1 in Hnv1 |- *. cbn [snd] in Hnv1.
  cbn [repo_rfid con_lecturas_reloj] in Hotros1.
  destruct r1 as [e1 | u1].
  { exists m, (repo_pins w), [LlObtenerPorSerial serial], (inl e1).
    split; [reflexivity |]. split; [exact Hotros1 |].
    repeat (split; [done || congruence |]). by repeat constructor. }
  destruct (negb (len sec_pin =? 4)).
  { exists m, (repo_pins w),
      [LlObtenerPorSerial serial; LlCapturarSecuencia 4 gesto],
      (inl (AutenticacionError PinIncompleto)).
    split; [cbn; rewrite <- ?app_assoc; reflexivity |].
    split; [exact Hotros1 |].
    repeat (split; [done || congruence |]). by repeat constructor. }
  match goal with
  | |- context [validar_pin self id_area sec_pin ?w2] =>
      destruct (validar_pin_marco self w2 id_area sec_pin)
        as (mp & r2 & Hrun2 & Hotros2 & _);
      pose proof (validar_pin_no_validacion self w2 id_area sec_pin) as Hnv2
  end.
  rewrite Hrun2 in Hnv2 |- *. cbn [snd] in Hnv2.
  cbn [repo_pins con_repo_rfid con_traza] in Hotros2.
  destruct r2 as [e2 | u2].
  { exists m, mp,
      [LlObtenerPorSerial serial; LlCapturarSecuencia 4 gesto;
       LlObtenerPorArea id_area], (inl e2).
    split; [cbn; rewrite <- ?app_assoc; reflexivity |].
    split; [exact Hotros1 |]. split; [exact Hotros2 |].
    split; [done || congruence |]. by repeat constructor. }
  destruct (negb (len sec_pat =? 10)) eqn:Hlen2.
  { exists m, mp,
      [LlObtenerPorSerial serial; LlCapturarSecuencia 4 gesto;
       LlObtenerPorArea id_area; LlCapturarSecuencia 10 gesto],
      (inl (AutenticacionError PatronIncompleto)).
    split; [cbn; rewrite <- ?app_assoc; reflexivity |].
    split; [exact Hotros1 |]. split; [exact Hotros2 |].
    split; [done || congruence |]. by repeat constructor. }
  assert (sec_pat <> []) as Hno.
  { intros ->. discriminate Hlen2. }
  match goal with
  | |- context [validar_patron self cedula sec_pat tiempos ?w4] =>
      pose proof (validar_patron_marco self w4 cedula sec_pat tiempos) as Hw5;
      pose proof (validar_patron_no_validacion self w4 cedula sec_pat tiempos
                    Hno) as Hnv3;
      destruct (validar_patron self cedula sec_pat tiempos w4) as [w5 r3]
  end.
  cbn [fst snd] in Hw5, Hnv3. subst w5.
  destruct r3 as [e3 | u3].
  { exists m, mp,
      [LlObtenerPorSerial serial; LlCapturarSecuencia 4 gesto;
       LlObtenerPorArea id_area; LlCapturarSecuencia 10 gesto;
       LlObtenerPorUsuario cedula], (inl e3).
    split; [cbn; rewrite <- ?app_assoc; reflexivity |].
    split; [exact Hotros1 |]. split; [exact Hotros2 |].
    split; [done || congruence |]. by repeat constructor. }
  eexists m, mp,
    ([LlObtenerPorSerial serial; LlCapturarSecuencia 4 gesto;
      LlObtenerPorArea id_area; LlCapturarSecuencia 10 gesto;
      LlObtenerPorUsuario cedula] ++ _), (inr _).
  split; [cbn; rewrite <- ?app_assoc; reflexivity |].
  split; [exact Hotros1 |]. split; [exact Hotros2 |]. split; [done |].
  split; [reflexivity |]. eexists. split; [reflexivity |].
  by repeat constructor.
Qed.

(** X16. [autenticar_mfa] grants access only if all three factors hold:
    when it returns an access record, the serial is that of a stored
    credential of the user that is in force at the time read, the PIN
    capture has four gestures and equals the reference of a stored PIN
    of the area that is not blocked, and the pattern capture has ten
    gestures, is not below the threshold against the stored pattern of
    the user and passes the timing check. *)
Theorem autenticar_mfa_concede_solo_si self w cedula id_area serial
    sensor_pin sensor_patron actuador gesto a :
  (autenticar_mfa self cedula id_area serial sensor_pin sensor_patron
                  actuador gesto w).2 = inr a ->
  exists cred pin patron,
    (repo_rfid w !! serial = Some cred
     /\ Cred.cedula_propietario cred = cedula
     /\ Cred.esta_vigente cred
          (datetime_date (reloj w (lecturas_reloj w))) = true)
    /\ (repo_pins w !! id_area = Some pin
        /\ Pin.estado pin <> BLOQUEADO
        /\ len (capturar_secuencia sensor_pin 4 gesto).1 = 4
        /\ (capturar_secuencia sensor_pin 4 gesto).1
           = Pin.secuencia_gestos pin)
    /\ (repo_patrones w !! cedula = Some patron
        /\ len (capturar_secuencia sensor_patron 10 gesto).1 = 10
        /\ F.ltb (similitud (Patron.secuencia_gestos patron)
                    (capturar_secuencia sensor_patron 10 gesto).1)
                 (umbral_similitud_patron self) = false
        /\ timings_aceptados (Patron.tiempos_entre_gestos patron)
             (capturar_secuencia sensor_patron 10 gesto).2 = true).
Proof.
  destruct (capturar_secuencia sensor_pin 4 gesto) as [sec_pin t_pin] eqn:Hc1.
  destruct (capturar_secuencia sensor_patron 10 gesto)
    as [sec_pat tiempos] eqn:Hc2.
  rewrite (autenticar_mfa_pasos _ _ _ _ _ _ _ _ _ _ _ _ _ Hc1 Hc2).
  cbn [fst snd].
  destruct (validar_rfid_marco self
              (con_lecturas_reloj (S (lecturas_reloj w)) w) serial cedula
              (reloj w (lecturas_reloj w)))
    as (m & r1 & Hrun1 & _ & _).
  rewrite Hrun1. destruct r1 as [e1 | u1]; [done |].
  destruct (validar_rfid_inr _ _ _ _ _ _ _ Hrun1)
    as (cred & Hcred & Hown & Hvig).
  destruct (len sec_pin =? 4) eqn:Hlen1; cbn [negb]; [| done].
  match goal with
  | |- context [validar_pin self id_area sec_pin ?w2] =>
      destruct (validar_pin_marco self w2 id_area sec_pin)
        as (mp & r2 & Hrun2 & _ & _)
  end.
  rewrite Hrun2. destruct r2 as [e2 | u2]; [done |].
  destruct (validar_pin_inr _ _ _ _ _ _ Hrun2) as (pin & Hpin & Hb & Hsec).
  destruct (len sec_pat =? 10) eqn:Hlen2; cbn [negb]; [| done].
  match goal with
  | |- context [validar_patron self cedula sec_pat tiempos ?w4] =>
      destruct (validar_patron self cedula sec_pat tiempos w4)
        as [w5 [e3 | u3]] eqn:Hrun3
  end; [done |].
  destruct (validar_patron_inr _ _ _ _ _ _ _ Hrun3)
    as (patron & Hpat & _ & Hsim & Htim).
  intros _. exists cred, pin, patron.
  apply Z.eqb_eq in Hlen1, Hlen2. done.
Qed.

(** The run of user 101 at the laboratory was granted, so the tag it
    showed is stored and belongs to that user. *)
Lemma autenticar_mfa_concede_solo_si_demo :
  exists cred,
    repo_rfid Demo.mundo !! "RF-1" = Some cred
    /\ Cred.cedula_propietario cred = "101".
Proof.
  destruct (autenticar_mfa_concede_solo_si servicio_por_defecto Demo.mundo
              "101" "LAB" "RF-1" Demo.sensor_pin_ok Demo.sensor_patron_ok
              Demo.puerta (Some 0)
              {| Acceso.id_acceso := "uuid-0";
                 Acceso.cedula_usuario := "101";
                 Acceso.id_area := "LAB";
                 Acceso.fecha_entrada := Demo.ahora;
                 Acceso.registro_exitoso_id := "" |})
    as (cred & _ & _ & (Hcred & Hown & _) & _).
  - vm_compute. reflexivity.
  - by exists cred.
Defined.

(** X17. No partial grant: when [autenticar_mfa] fails, whatever the
    reason, no access record has been added, no identifier has been
    drawn, and none of the calls it made is a signal to the actuator or
    the recording of an access. *)
Theorem autenticar_mfa_fallo_sin_concesion self w cedula id_area serial
    sensor_pin sensor_patron actuador gesto e :
  (autenticar_mfa self cedula id_area serial sensor_pin sensor_patron
                  actuador gesto w).2 = inl e ->
  repo_accesos
    (autenticar_mfa self cedula id_area serial sensor_pin sensor_patron
                    actuador gesto w).1 = repo_accesos w
  /\ uuids_usados
       (autenticar_mfa self cedula id_area serial sensor_pin sensor_patron
                       actuador gesto w).1 = uuids_usados w
  /\ exists extra,
       traza
         (autenticar_mfa self cedula id_area serial sensor_pin sensor_patron
                         actuador gesto w).1 = traza w ++ extra
       /\ Forall (fun ll => es_concesion ll = false) extra.
Proof.
  destruct (autenticar_mfa_forma self w cedula id_area serial
              sensor_pin sensor_patron actuador gesto)
    as (mr & mp & extra & r & -> & _ & _ & _ & Hr).
  cbn [fst snd repo_accesos uuids_usados traza]. intros ->.
  repeat (split; [done |]). by exists extra.
Qed.

(** A PIN capture cut short: nothing was granted. *)
Lemma autenticar_mfa_fallo_sin_concesion_demo :
  repo_accesos
    (autenticar_mfa servicio_por_defecto "101" "LAB" "RF-1"
       Demo.sensor_pin_corto Demo.sensor_patron_ok Demo.puerta (Some 0)
       Demo.mundo).1 = repo_accesos Demo.mundo.
Proof.
  apply (autenticar_mfa_fallo_sin_concesion servicio_por_defecto Demo.mundo
           "101" "LAB" "RF-1" Demo.sensor_pin_corto Demo.sensor_patron_ok
           Demo.puerta (Some 0) (AutenticacionError PinIncompleto)).
  vm_compute. reflexivity.
Defined.

(** X18. Every run of [autenticar_mfa], granted or not, reads the clock
    exactly once, leaves the stored patterns, the clock and the
    identifier source as they were, only adds to the log of calls, and
    touches no credential but the one under the serial presented and no
    PIN but the one of the area asked for. *)
Theorem autenticar_mfa_marco self w cedula id_area serial
    sensor_pin sensor_patron actuador gesto :
  lecturas_reloj
    (autenticar_mfa self cedula id_area serial sensor_pin sensor_patron
                    actuador gesto w).1 = S (lecturas_reloj w)
  /\ repo_patrones
       (autenticar_mfa self cedula id_area serial sensor_pin sensor_patron
                       actuador gesto w).1 = repo_patrones w
  /\ reloj
       (autenticar_mfa self cedula id_area serial sensor_pin sensor_patron
                       actuador gesto w).1 = reloj w
  /\ uuids
       (autenticar_mfa self cedula id_area serial sensor_pin sensor_patron
                       actuador gesto w).1 = uuids w
  /\ (exists extra,
        traza
          (autenticar_mfa self cedula id_area serial sensor_pin sensor_patron
                          actuador gesto w).1 = traza w ++ extra)
  /\ (forall s, s <> serial ->
        repo_rfid
          (autenticar_mfa self cedula id_area serial sensor_pin sensor_patron
                          actuador gesto w).1 !! s = repo_rfid w !! s)
  /\ (forall ar, ar <> id_area ->
        repo_pins
          (autenticar_mfa self cedula id_area serial sensor_pin sensor_patron
                          actuador gesto w).1 !! ar = repo_pins w !! ar).
Proof.
  destruct (autenticar_mfa_forma self w cedula id_area serial
              sensor_pin sensor_patron actuador gesto)
    as (mr & mp & extra & r & -> & Hcreds & Hpins & _ & _).
  cbn [fst lecturas_reloj repo_patrones reloj uuids traza repo_rfid
       repo_pins].
  repeat (split; [done |]). split; [by exists extra |]. done.
Qed.

(** X19. [autenticar_mfa] never raises the validation error: the empty
    capture that would cause it in [validar_patron] is turned away before
    as an incomplete capture. *)
Theorem autenticar_mfa_sin_validacion_error self w cedula id_area serial
    sensor_pin sensor_patron actuador gesto :
  (autenticar_mfa self cedula id_area serial sensor_pin sensor_patron
                  actuador gesto w).2 <> inl ValidacionError.
Proof.
  destruct (autenticar_mfa_forma self w cedula id_area serial
              sensor_pin sensor_patron actuador gesto)
    as (mr & mp & extra & r & -> & _ & _ & Hval & _).
  exact Hval.
Qed.

(** X20. A tag of somebody else stops the run at once: [autenticar_mfa]
    raises the mismatch error of the RFID validator, the credential has
    one more failed attempt, and the only call made is the lookup of the
    credential; no gesture capture is asked for. *)
Theorem autenticar_mfa_rfid_ajena self w cedula id_area serial
    sensor_pin sensor_patron actuador gesto cred :
  repo_rfid w !! serial = Some cred ->
  Cred.cedula_propietario cred <> cedula ->
  autenticar_mfa self cedula id_area serial sensor_pin sensor_patron
                 actuador gesto w =
    ({| repo_rfid :=
          <[serial :=
              {| Cred.cedula_propietario := Cred.cedula_propietario cred;
                 Cred.fecha_expiracion := Cred.fecha_expiracion cred;
                 Cred.estado := Cred.estado cred;
                 Cred.intentos_fallidos := Cred.intentos_fallidos cred + 1;
                 Cred.intentos_exitosos := Cred.intentos_exitosos cred;
                 Cred.ultimo_acceso := Cred.ultimo_acceso cred |}]>
            (repo_rfid w);
        repo_pins := repo_pins w;
        repo_patrones := repo_patrones w;
        repo_accesos := repo_accesos w;
        traza := traza w ++ [LlObtenerPorSerial serial];
        reloj := reloj w;
        lecturas_reloj := S (lecturas_reloj w);
        uuids := uuids w;
        uuids_usados := uuids_usados w |},
     inl (AutenticacionError RfidNoCorresponde)).
Proof.
  intros Hcred Hown. unfold autenticar_mfa.
  rewrite (M_bind_inr datetime_now _ w _ _ eq_refl).
  erewrite M_bind_inl;
    [| by apply (validar_rfid_no_corresponde _ _ _ _ _ cred)].
  reflexivity.
Qed.

Lemma autenticar_mfa_rfid_ajena_demo :
  traza
    (autenticar_mfa servicio_por_defecto "101" "LAB" "RF-2"
       Demo.sensor_pin_ok Demo.sensor_patron_ok Demo.puerta (Some 0)
       Demo.mundo).1
  = [] ++ [LlObtenerPorSerial "RF-2"].
Proof.
  rewrite (autenticar_mfa_rfid_ajena servicio_por_defecto Demo.mundo
             "101" "LAB" "RF-2" Demo.sensor_pin_ok Demo.sensor_patron_ok
             Demo.puerta (Some 0) Demo.cred_luis eq_refl);
    [reflexivity | discriminate].
Defined.

(** X21. A wrong PIN after a good tag: [autenticar_mfa] raises the
    wrong-PIN error; what the RFID validator wrote on success stays (no
    roll-back), the PIN has one more failed attempt and is blocked if
    that reaches the maximum, and the run stops before the pattern
    capture. *)
Theorem autenticar_mfa_pin_incorrecto self w cedula id_area serial
    sensor_pin sensor_patron actuador gesto cred pin sec_pin t_pin :
  repo_rfid w !! serial = Some cred ->
  Cred.cedula_propietario cred = cedula ->
  Cred.esta_vigente cred (datetime_date (reloj w (lecturas_reloj w))) = true ->
  capturar_secuencia sensor_pin 4 gesto = (sec_pin, t_pin) ->
  len sec_pin = 4 ->
  repo_pins w !! id_area = Some pin ->
  Pin.estado pin <> BLOQUEADO ->
  sec_pin <> Pin.secuencia_gestos pin ->
  autenticar_mfa self cedula id_area serial sensor_pin sensor_patron
                 actuador gesto w =
    ({| repo_rfid :=
          <[serial :=
              {| Cred.cedula_propietario := Cred.cedula_propietario cred;
                 Cred.fecha_expiracion := Cred.fecha_expiracion cred;
                 Cred.estado := Cred.estado cred;
                 Cred.intentos_fallidos := 0;
                 Cred.intentos_exitosos := Cred.intentos_exitosos cred + 1;
                 Cred.ultimo_acceso := Some (reloj w (lecturas_reloj w)) |}]>
            (repo_rfid w);
        repo_pins :=
          <[id_area :=
              {| Pin.id_area := Pin.id_area pin;
                 Pin.secuencia_gestos := Pin.secuencia_gestos pin;
                 Pin.estado :=
                   if max_intentos_pin self <=? Pin.intentos_fallidos pin + 1
                   then BLOQUEADO else Pin.estado pin;
                 Pin.intentos_fallidos := Pin.intentos_fallidos pin + 1 |}]>
            (repo_pins w);
        repo_patrones := repo_patrones w;
        repo_accesos := repo_accesos w;
        traza :=
          traza w ++
            [LlObtenerPorSerial serial;
             LlCapturarSecuencia 4 gesto;
             LlObtenerPorArea id_area];
        reloj := reloj w;
        lecturas_reloj := S (lecturas_reloj w);
        uuids := uuids w;
        uuids_usados := uuids_usados w |},
     inl (AutenticacionError PinIncorrecto)).
Proof.
  intros Hcred Hown Hvig Hcap1 Hlen1 Hpin Hb Hne. unfold autenticar_mfa.
  rewrite (M_bind_inr datetime_now _ w _ _ eq_refl).
  erewrite M_bind_inr; [| by apply (validar_rfid_exito _ _ _ _ _ cred)].
  erewrite M_bind_inr; [| apply capturar_corre].
  rewrite Hcap1.
  assert ((len sec_pin =? 4) = true) as -> by (by apply Z.eqb_eq).
  cbn [negb].
  erewrite M_bind_inl; [| by apply (validar_pin_incorrecto _ _ _ _ pin)].
  cbn. rewrite <- !app_assoc. reflexivity.
Qed.

(** A wrong PIN at the laboratory, its third: the run fails, and the
    tag of user 101 has its successful attempt counted all the same. *)
Lemma autenticar_mfa_pin_incorrecto_demo :
  (let r := autenticar_mfa servicio_por_defecto "101" "LAB" "RF-1"
              {| capturar_secuencia := fun _ _ => ([9; 9; 9; 9], None) |}
              Demo.sensor_patron_ok Demo.puerta (Some 0) Demo.mundo in
   r.2 = inl (AutenticacionError PinIncorrecto)
   /\ Cred.intentos_exitosos <$> (repo_rfid r.1 !! "RF-1") = Some 8
   /\ Pin.estado <$> (repo_pins r.1 !! "LAB") = Some BLOQUEADO).
Proof.
  cbv zeta.
  rewrite (autenticar_mfa_pin_incorrecto servicio_por_defecto Demo.mundo
             "101" "LAB" "RF-1"
             {| capturar_secuencia := fun _ _ => ([9; 9; 9; 9], None) |}
             Demo.sensor_patron_ok Demo.puerta (Some 0)
             Demo.cred_ana Demo.pin_lab [9; 9; 9; 9] None
             eq_refl eq_refl eq_refl eq_refl eq_refl eq_refl);
    [| discriminate | discriminate].
  cbn [fst snd repo_rfid repo_pins]. rewrite !lookup_insert_eq.
  repeat split.
Defined.

(** X22. A pattern below the threshold after a good tag and a good PIN:
    [autenticar_mfa] raises the pattern-mismatch error with the
    similarity and the threshold; what the two earlier validators wrote
    stays, and there is no signal to the actuator, no identifier drawn
    and no access record. *)
Theorem autenticar_mfa_patron_no_coincide self w cedula id_area serial
    sensor_pin sensor_patron actuador gesto
    cred pin patron sec_pin t_pin sec_pat tiempos :
  repo_rfid w !! serial = Some cred ->
  Cred.cedula_propietario cred = cedula ->
  Cred.esta_vigente cred (datetime_date (reloj w (lecturas_reloj w))) = true ->
  capturar_secuencia sensor_pin 4 gesto = (sec_pin, t_pin) ->
  len sec_pin = 4 ->
  repo_pins w !! id_area = Some pin ->
  Pin.estado pin <> BLOQUEADO ->
  sec_pin = Pin.secuencia_gestos pin ->
  capturar_secuencia sensor_patron 10 gesto = (sec_pat, tiempos) ->
  len sec_pat = 10 ->
  repo_patrones w !! cedula = Some patron ->
  F.ltb (similitud (Patron.secuencia_gestos patron) sec_pat)
        (umbral_similitud_patron self) = true ->
  autenticar_mfa self cedula id_area serial sensor_pin sensor_patron
                 actuador gesto w =
    ({| repo_rfid :=
          <[serial :=
              {| Cred.cedula_propietario := Cred.cedula_propietario cred;
                 Cred.fecha_expiracion := Cred.fecha_expiracion cred;
                 Cred.estado := Cred.estado cred;
                 Cred.intentos_fallidos := 0;
                 Cred.intentos_exitosos := Cred.intentos_exitosos cred + 1;
                 Cred.ultimo_acceso := Some (reloj w (lecturas_reloj w)) |}]>
            (repo_rfid w);
        repo_pins :=
          <[id_area := Pin.con_intentos_fallidos 0 pin]> (repo_pins w);
        repo_patrones := repo_patrones w;
        repo_accesos := repo_accesos w;
        traza :=
          traza w ++
            [LlObtenerPorSerial serial;
             LlCapturarSecuencia 4 gesto;
             LlObtenerPorArea id_area;
             LlCapturarSecuencia 10 gesto;
             LlObtenerPorUsuario cedula];
        reloj := reloj w;
        lecturas_reloj := S (lecturas_reloj w);
        uuids := uuids w;
        uuids_usados := uuids_usados w |},
     inl (AutenticacionError
            (PatronNoCoincide
               (similitud (Patron.secuencia_gestos patron) sec_pat)
               (umbral_similitud_patron self)))).
Proof.
  intros Hcred Hown Hvig Hcap1 Hlen1 Hpin Hb Hsec Hcap2 Hlen2 Hpat Hsim.
  unfold autenticar_mfa.
  rewrite (M_bind_inr datetime_now _ w _ _ eq_refl).
  erewrite M_bind_inr; [| by apply (validar_rfid_exito _ _ _ _ _ cred)].
  erewrite M_bind_inr; [| apply capturar_corre].
  rewrite Hcap1.
  assert ((len sec_pin =? 4) = true) as -> by (by apply Z.eqb_eq).
  cbn [negb].
  erewrite M_bind_inr; [| by apply (validar_pin_exito _ _ _ _ pin)].
  erewrite M_bind_inr; [| apply capturar_corre].
  rewrite Hcap2.
  assert ((len sec_pat =? 10) = true) as -> by (by apply Z.eqb_eq).
  cbn [negb].
  assert (sec_pat <> []) as Hno by (intros ->; discriminate Hlen2).
  erewrite M_bind_inl.
  2: { rewrite (validar_patron_corre _ _ _ _ _ patron) by done.
       rewrite Hsim. reflexivity. }
  cbn. rewrite <- !app_assoc. reflexivity.
Qed.

(** Eight gestures of ten after a good tag and a good PIN: refused, and
    the failed attempts on the PIN of the laboratory were cleared. *)
Lemma autenticar_mfa_patron_no_coincide_demo :
  (let r := autenticar_mfa servicio_por_defecto "101" "LAB" "RF-1"
              Demo.sensor_pin_ok
              {| capturar_secuencia :=
                   fun _ _ => ([1; 2; 3; 4; 5; 1; 2; 3; 9; 9], None) |}
              Demo.puerta (Some 0) Demo.mundo in
   repo_accesos r.1 = []
   /\ Pin.intentos_fallidos <$> (repo_pins r.1 !! "LAB") = Some 0).
Proof.
  cbv zeta.
  rewrite (autenticar_mfa_patron_no_coincide servicio_por_defecto Demo.mundo
             "101" "LAB" "RF-1" Demo.sensor_pin_ok
             {| capturar_secuencia :=
                  fun _ _ => ([1; 2; 3; 4; 5; 1; 2; 3; 9; 9], None) |}
             Demo.puerta (Some 0)
             Demo.cred_ana Demo.pin_lab Demo.patron_ana
             [1; 2; 3; 4] None [1; 2; 3; 4; 5; 1; 2; 3; 9; 9] None
             eq_refl eq_refl eq_refl eq_refl eq_refl eq_refl).
  - cbn [fst repo_accesos repo_pins]. rewrite lookup_insert_eq. by split.
  - discriminate.
  - reflexivity.
  - reflexivity.
  - reflexivity.
  - reflexivity.
  - vm_compute. reflexivity.
Defined.
